(** * Proxmox NAS web UI: a shallow embedding of [src/web-ui/app.py]

    The handlers of the Flask application are embedded as functions of a
    small monad that threads the part of the outside world they touch
    (the file system around the site-configuration directory, the
    external tools, the flash messages) and records whether a handler
    returns, raises or blocks forever.  Python objects are embedded as a
    datatype of dynamic values whose dictionaries are finite maps. *)

From Stdlib Require Import ZArith Ascii String List Lia Bool.
From stdpp Require Import gmap strings list fin_maps.

Set Warnings "-register-all".
Local Open Scope Z_scope.

(** ** Python values *)

Module Py.

(** A key of a dictionary: a string, or any other hashable object (a
    number, a date, [None]), held by its canonical [repr]. *)
Inductive key : Type :=
  | KStr (s : string)
  | KOther (repr : string).

#[global] Instance key_eq_dec : EqDecision key.
Proof. solve_decision. Defined.

#[global] Instance key_countable : Countable key :=
  inj_countable'
    (fun k => match k with KStr s => inl s | KOther s => inr s end)
    (fun x => match x with inl s => KStr s | inr s => KOther s end)
    (fun k => match k with KStr _ => eq_refl | KOther _ => eq_refl end).

(** The dynamic values that flow through the handlers.  A [dict] is a
    finite map: Python compares dictionaries regardless of insertion
    order.  [VOther] stands for an object of any other type (a float, a
    date, a set), by the name of its type and its [repr].

    A text (Python [str]) is held as the string of the bytes of its
    UTF-8 encoding; on ASCII texts the two coincide. *)
Inductive value : Type :=
  | VNone
  | VBool (b : bool)
  | VInt (n : Z)
  | VStr (s : string)
  | VList (l : list value)
  | VDict (d : gmap key value)
  | VOther (type_name repr : string).

(** Exceptions.  Every handler of the application catches [Exception]
    as a whole and only ever looks at [str(e)]. *)
Inductive exn : Type :=
  | BadRequestKeyError (key : string)
  | ValueError (msg : string)
  | TypeError (msg : string)
  | OSError (msg : string)
  | JSONDecodeError (msg : string)
  | YAMLError (msg : string)
  | TimeoutExpired (msg : string)
  | UnicodeDecodeError (msg : string).

(** [str(e)]. Werkzeug prints a fixed description for a missing form key. *)
Definition str_exn (e : exn) : string :=
  match e with
  | BadRequestKeyError _ =>
      "400 Bad Request: The browser (or proxy) sent a request that this server could not understand."
  | ValueError m | TypeError m | OSError m
  | JSONDecodeError m | YAMLError m | TimeoutExpired m
  | UnicodeDecodeError m => m
  end.

(** [d.get(k)] on a value: [None] unless the value is a dictionary with
    that key. *)
Definition get_item (v : value) (k : string) : option value :=
  match v with
  | VDict d => d !! KStr k
  | _ => None
  end.

(** Nested access [v[k1][k2]]. *)
Definition get_path (v : value) (k1 k2 : string) : option value :=
  match get_item v k1 with
  | Some u => get_item u k2
  | None => None
  end.

(** *** Characters *)

Definition byte (c : ascii) : Z := Z.of_nat (nat_of_ascii c).

(** A continuation byte of UTF-8, [10xxxxxx]. *)
Definition is_continuation (c : ascii) : bool :=
  (128 <=? byte c) && (byte c <? 192).

(** The characters of a text, each as the string of its bytes: a new
    character starts at every byte that is no continuation byte. *)
Fixpoint chars (s : string) : list string :=
  match s with
  | EmptyString => []
  | String c r =>
      match r with
      | String d _ =>
          if is_continuation d
          then match chars r with
               | h :: t => String c h :: t
               | [] => [String c EmptyString]
               end
          else String c EmptyString :: chars r
      | EmptyString => [String c EmptyString]
      end
  end.

(** The code point of a character; [-1] for bytes that encode none. *)
Definition code_point (ch : string) : Z :=
  match ch with
  | String a EmptyString => if byte a <? 128 then byte a else -1
  | String a (String b EmptyString) =>
      (byte a - 192) * 64 + (byte b - 128)
  | String a (String b (String c EmptyString)) =>
      (byte a - 224) * 4096 + (byte b - 128) * 64 + (byte c - 128)
  | String a (String b (String c (String d EmptyString))) =>
      (byte a - 240) * 262144 + (byte b - 128) * 4096
      + (byte c - 128) * 64 + (byte d - 128)
  | _ => -1
  end.

(** [str.isspace] of a character, by its code point: the ASCII white
    space with the four separators 28..31, and the white space of
    Unicode beyond ASCII. *)
Definition isspace (cp : Z) : bool :=
  ((9 <=? cp) && (cp <=? 13)) || ((28 <=? cp) && (cp <=? 32))
  || (cp =? 133) || (cp =? 160) || (cp =? 5760)
  || ((8192 <=? cp) && (cp <=? 8202))
  || (cp =? 8232) || (cp =? 8233) || (cp =? 8239) || (cp =? 8287)
  || (cp =? 12288).

(** *** String built-ins *)

Fixpoint lstrip_chars (cs : list string) : list string :=
  match cs with
  | [] => []
  | ch :: r => if isspace (code_point ch) then lstrip_chars r else cs
  end.

(** [s.strip()] *)
Definition strip (s : string) : string :=
  String.concat EmptyString (rev (lstrip_chars (rev (lstrip_chars (chars s))))).

(** [s.split(sep)] for a one-character separator. *)
Fixpoint split (sep : ascii) (s : string) : list string :=
  match s with
  | EmptyString => [EmptyString]
  | String c r =>
      if Ascii.eqb c sep then EmptyString :: split sep r
      else match split sep r with
           | h :: t => String c h :: t
           | [] => [String c EmptyString]
           end
  end.

(** [s.endswith(suffix)] *)
Definition endswith (s suffix : string) : bool :=
  let n := String.length s in
  let k := String.length suffix in
  (k <=? n)%nat && String.eqb (substring (n - k) k s) suffix.

(** [c in s] for a character. *)
Fixpoint contains_char (c : ascii) (s : string) : bool :=
  match s with
  | EmptyString => false
  | String d r => Ascii.eqb c d || contains_char c r
  end.

End Py.
Export Py.

(** ** The outside world *)

(** What an external program does when it is started with an argument
    vector in a working directory, as [subprocess.run] with
    [capture_output=True, text=True] sees it: the program runs for some
    time and exits, and its captured output is read as text, or is not
    valid text in the encoding of the locale; it never exits; or it
    cannot be started at all. *)
Inductive behaviour : Type :=
  | Exits (elapsed : Z) (returncode : Z) (stdout stderr : string)
  | ExitsUndecodable (elapsed : Z) (returncode : Z) (reason : string)
  | NeverExits
  | LaunchFails (e : exn).

(** One [subprocess.run] call as it was issued. *)
Record call : Type := Call {
  call_argv : list string;
  call_cwd : option string;
  call_shell : bool;
  call_timeout : option Z
}.

(** The state the handlers act on.

    [w_dir_exists] and [w_files] are [CONFIG_DIR]: whether it exists, and
    the regular files directly inside it, by file name, with the bytes
    they hold; the directory has no sub-directories.  [w_rank] is the
    order in which the file system enumerates names (lower first).
    [w_dirs] tells which other directories exist, by the components of
    their absolute path, and [w_outside] holds the regular files written
    anywhere else, by the components of their absolute path. *)
Record world : Type := World {
  w_dir_exists : bool;
  w_files : list (string * string);
  w_tools : list string -> option string -> behaviour;
  w_calls : list call;
  w_flashes : list (string * string);
  w_hostname : string;
  w_now : string;
  w_rank : string -> nat;
  w_dirs : list string -> bool;
  w_outside : list (list string * string)
}.

Definition set_dir_exists (b : bool) (w : world) : world :=
  World b (w_files w) (w_tools w) (w_calls w) (w_flashes w) (w_hostname w) (w_now w)
        (w_rank w) (w_dirs w) (w_outside w).
Definition set_files (fs : list (string * string)) (w : world) : world :=
  World (w_dir_exists w) fs (w_tools w) (w_calls w) (w_flashes w) (w_hostname w) (w_now w)
        (w_rank w) (w_dirs w) (w_outside w).
Definition set_outside (fs : list (list string * string)) (w : world) : world :=
  World (w_dir_exists w) (w_files w) (w_tools w) (w_calls w) (w_flashes w)
        (w_hostname w) (w_now w) (w_rank w) (w_dirs w) fs.
Definition add_call (c : call) (w : world) : world :=
  World (w_dir_exists w) (w_files w) (w_tools w) (w_calls w ++ [c]) (w_flashes w)
        (w_hostname w) (w_now w) (w_rank w) (w_dirs w) (w_outside w).
Definition add_flash (m : string * string) (w : world) : world :=
  World (w_dir_exists w) (w_files w) (w_tools w) (w_calls w) (w_flashes w ++ [m])
        (w_hostname w) (w_now w) (w_rank w) (w_dirs w) (w_outside w).

(** ** The monad of handlers *)

(** A computation returns a value, raises, or blocks forever. *)
Inductive outcome (A : Type) : Type :=
  | Ret (a : A)
  | Raise (e : exn)
  | Blocked.
Arguments Ret {A} a.
Arguments Raise {A} e.
Arguments Blocked {A}.

Definition M (A : Type) : Type := world -> outcome A * world.

Definition ret {A} (a : A) : M A := fun w => (Ret a, w).
Definition raise {A} (e : exn) : M A := fun w => (Raise e, w).
Definition bind {A B} (m : M A) (k : A -> M B) : M B :=
  fun w =>
    match m w with
    | (Ret a, w') => k a w'
    | (Raise e, w') => (Raise e, w')
    | (Blocked, w') => (Blocked, w')
    end.

(** [try: body  except Exception as e: handler(e)] *)
Definition try_except {A} (body : M A) (handler : exn -> M A) : M A :=
  fun w =>
    match body w with
    | (Raise e, w') => handler e w'
    | r => r
    end.

Declare Scope py_scope.
Delimit Scope py_scope with py.
Notation "x <- m ;; k" := (bind m (fun x => k))
  (at level 100, m at next level, right associativity) : py_scope.
Notation "m ;; k" := (bind m (fun _ => k))
  (at level 100, right associativity) : py_scope.
Local Open Scope py_scope.

Definition lift {A} (r : A + exn) : M A :=
  match r with
  | inl a => ret a
  | inr e => raise e
  end.

(** *** [subprocess.run]

    Every call of the application passes [capture_output=True] and
    [text=True].  The call is logged, then the program is started: the
    vector itself or, with [shell=True], a shell that is handed the
    vector.  Without a timeout the caller waits for the program however
    long it takes; with a timeout of [t] seconds a program still running
    after [t] is killed and [TimeoutExpired] is raised.  When the program
    has exited its captured output is decoded; output that is not valid
    text raises [UnicodeDecodeError]. *)
Record CompletedProcess : Type := Completed {
  returncode : Z;
  stdout : string;
  stderr : string
}.

Definition started (argv : list string) (shell : bool) : list string :=
  if shell then "/bin/sh" :: "-c" :: argv else argv.

Definition timed_out (elapsed : Z) (timeout : option Z) : bool :=
  match timeout with
  | Some t => t <? elapsed
  | None => false
  end.

Definition subprocess_run (argv : list string) (cwd : option string)
    (shell : bool) (timeout : option Z) : M CompletedProcess :=
  fun w =>
    let w' := add_call (Call argv cwd shell timeout) w in
    match w_tools w (started argv shell) cwd, timeout with
    | LaunchFails e, _ => (Raise e, w')
    | NeverExits, None => (Blocked, w')
    | NeverExits, Some _ => (Raise (TimeoutExpired "timed out"), w')
    | Exits d rc out err, Some t =>
        if t <? d then (Raise (TimeoutExpired "timed out"), w')
        else (Ret (Completed rc out err), w')
    | Exits d rc out err, None => (Ret (Completed rc out err), w')
    | ExitsUndecodable d rc reason, _ =>
        if timed_out d timeout then (Raise (TimeoutExpired "timed out"), w')
        else (Raise (UnicodeDecodeError reason), w')
    end.

(** *** The file system *)

(** The components of [CONFIG_DIR]. *)
Definition CONFIG_PARTS : list string := ["opt"; "brewnix"; "config"; "sites"].

(** A name is a single path component when it holds neither a slash nor
    a NUL; only such names address a file directly inside the directory. *)
Definition single_component (name : string) : bool :=
  negb (contains_char "/"%char name) && negb (contains_char "000"%char name).

Fixpoint lookup_file (name : string) (fs : list (string * string)) : option string :=
  match fs with
  | [] => None
  | (n, c) :: r => if String.eqb n name then Some c else lookup_file name r
  end.

(** Writing replaces the content of an existing entry or adds an entry. *)
Fixpoint store_file (name content : string) (fs : list (string * string))
    : list (string * string) :=
  match fs with
  | [] => [(name, content)]
  | (n, c) :: r =>
      if String.eqb n name then (n, content) :: r
      else (n, c) :: store_file name content r
  end.

(** The same for the files outside the directory, by their path. *)
Fixpoint lookup_outside (path : list string) (fs : list (list string * string))
    : option string :=
  match fs with
  | [] => None
  | (p, c) :: r => if bool_decide (p = path) then Some c else lookup_outside path r
  end.

Fixpoint store_outside (path : list string) (content : string)
    (fs : list (list string * string)) : list (list string * string) :=
  match fs with
  | [] => [(path, content)]
  | (p, c) :: r =>
      if bool_decide (p = path) then (p, content) :: r
      else (p, c) :: store_outside path content r
  end.

(** The order of enumeration: names of lower rank first, names of equal
    rank as they are held. *)
Fixpoint insert_by (rank : string -> nat) (x : string) (l : list string)
    : list string :=
  match l with
  | [] => [x]
  | y :: r => if (rank x <=? rank y)%nat then x :: l else y :: insert_by rank x r
  end.

Definition sort_by (rank : string -> nat) (l : list string) : list string :=
  foldr (insert_by rank) [] l.

(** [CONFIG_DIR.exists()] *)
Definition config_dir_exists : M bool := fun w => (Ret (w_dir_exists w), w).

(** [CONFIG_DIR.glob('*.yml')]: the names of the matching entries, in the
    order of the file system. *)
Definition glob_yml : M (list string) :=
  fun w =>
    (Ret (sort_by (w_rank w)
            (filter (fun n => endswith n ".yml" = true) (map fst (w_files w)))), w).

(** [CONFIG_DIR.mkdir(parents=True, exist_ok=True)]: the directory and
    the directories above it exist afterwards. *)
Definition mkdir_config_dir : M unit := fun w => (Ret tt, set_dir_exists true w).

(** [open(CONFIG_DIR / name, 'r')] followed by reading the file, for a
    name that [glob] returned. *)
Definition read_file (name : string) : M string :=
  fun w =>
    match lookup_file name (w_files w) with
    | Some c => (Ret c, w)
    | None => (Raise (OSError ("No such file or directory: " +:+ name)), w)
    end.

(** The components of the path [CONFIG_DIR / p], as [pathlib] joins
    them: an absolute [p] replaces the directory, empty components and
    single dots are dropped, double dots stay. *)
Definition path_parts (p : string) : list string :=
  let parts :=
    List.filter (fun c => negb (String.eqb c "") && negb (String.eqb c "."))
                (split "/"%char p) in
  match p with
  | String "/"%char _ => parts
  | _ => CONFIG_PARTS ++ parts
  end.

(** Whether a directory stands at an absolute path: the root does;
    [CONFIG_DIR] and the directories above it do once [CONFIG_DIR] was
    made; nothing inside [CONFIG_DIR] does; for every other path the
    world tells. *)
Definition is_dir (w : world) (path : list string) : bool :=
  match path with
  | [] => true
  | _ =>
      if bool_decide (path = CONFIG_PARTS) then w_dir_exists w
      else if bool_decide (path `prefix_of` CONFIG_PARTS)
           then w_dir_exists w || w_dirs w path
      else if bool_decide (CONFIG_PARTS `prefix_of` path) then false
      else w_dirs w path
  end.

(** The operating system walks the components from the root: a double
    dot steps to the parent, any other component but the last must be a
    directory.  The result is the absolute path of the last component;
    there is none when a directory on the way is missing or the path
    itself ends in a directory. *)
Fixpoint walk (w : world) (cur : list string) (parts : list string)
    : option (list string) :=
  match parts with
  | [] => None
  | [last] => if String.eqb last ".." then None else Some (cur ++ [last])
  | c :: rest =>
      if String.eqb c ".." then walk w (removelast cur) rest
      else if is_dir w (cur ++ [c]) then walk w (cur ++ [c]) rest
      else None
  end.

(** Where a file name leads: to a file of the store or to a file
    elsewhere. *)
Inductive target : Type :=
  | InStore (file : string)
  | Outside (path : list string).

Definition classify (path : list string) : target :=
  match path with
  | [a; b; c; d; file] =>
      if bool_decide ([a; b; c; d] = CONFIG_PARTS) then InStore file
      else Outside path
  | _ => Outside path
  end.

(** The file that [open(CONFIG_DIR / name, 'w')] opens. *)
Definition resolve (w : world) (name : string) : target + exn :=
  if single_component name then
    if w_dir_exists w then inl (InStore name)
    else inr (OSError ("No such file or directory: " +:+ name))
  else if contains_char "000"%char name then inr (ValueError "embedded null byte")
  else match walk w [] (path_parts name) with
       | None => inr (OSError ("No such file or directory: " +:+ name))
       | Some path =>
           if is_dir w path then inr (OSError ("Is a directory: " +:+ name))
           else inl (classify path)
       end.

(** [open(CONFIG_DIR / name, 'w')]: the file is created, or truncated when
    it exists. *)
Definition open_w (name : string) : M unit :=
  fun w =>
    match resolve w name with
    | inl (InStore file) => (Ret tt, set_files (store_file file "" (w_files w)) w)
    | inl (Outside path) =>
        (Ret tt, set_outside (store_outside path "" (w_outside w)) w)
    | inr e => (Raise e, w)
    end.

(** Writing to the open file and closing it: the text is appended to
    what the file holds. *)
Definition write_close (name text : string) : M unit :=
  fun w =>
    match resolve w name with
    | inl (InStore file) =>
        match lookup_file file (w_files w) with
        | Some c => (Ret tt, set_files (store_file file (c +:+ text) (w_files w)) w)
        | None => (Raise (OSError ("Bad file descriptor: " +:+ name)), w)
        end
    | inl (Outside path) =>
        match lookup_outside path (w_outside w) with
        | Some c =>
            (Ret tt, set_outside (store_outside path (c +:+ text) (w_outside w)) w)
        | None => (Raise (OSError ("Bad file descriptor: " +:+ name)), w)
        end
    | inr e => (Raise e, w)
    end.

(** ** Flask *)

Record request : Type := Request {
  method : string;
  form : list (string * string)
}.

(** [request.form[key]]: the first value of the key. *)
Fixpoint form_first (key : string) (f : list (string * string)) : option string :=
  match f with
  | [] => None
  | (k, v) :: r => if String.eqb k key then Some v else form_first key r
  end.

Definition form_get (req : request) (key : string) : M string :=
  match form_first key (form req) with
  | Some v => ret v
  | None => raise (BadRequestKeyError key)
  end.

(** [request.form.getlist(key)]: every value of the key, in order. *)
Fixpoint form_getlist (key : string) (f : list (string * string)) : list string :=
  match f with
  | [] => []
  | (k, v) :: r =>
      if String.eqb k key then v :: form_getlist key r else form_getlist key r
  end.

(** [flash(message, category)]; the category defaults to ['message']. *)
Definition flash (message category : string) : M unit :=
  fun w => (Ret tt, add_flash (message, category) w).

Definition url_for (endpoint : string) : string :=
  if String.eqb endpoint "dashboard" then "/"
  else if String.eqb endpoint "sites" then "/sites"
  else "/" +:+ endpoint.

Inductive response : Type :=
  | Render (template : string) (context : list (string * value))
  | Redirect (location : string)
  | Json (body : value).

(** ** What lies outside the repository

    [json.loads], [yaml.dump] and [yaml.safe_load] belong to libraries;
    the handlers are embedded over any implementation of them.  A decoder
    yields the exception that the library raises; [yaml_safe_load] stands
    for reading the bytes of a file as text and parsing them.  The table
    of the decimal digits of Unicode beyond ASCII and the limit on the
    number of digits that [int] converts (0 for none) belong to the
    Python runtime. *)
Class Codec : Type := {
  json_loads : string -> value + exn;
  yaml_dump : value -> string;
  yaml_safe_load : string -> value + exn;
  unicode_decimal : Z -> option Z;
  int_max_str_digits : nat
}.

(** *** [int(s)] on a text

    The text is first brought to ASCII: a character below 127 stays, a
    white-space character of Unicode becomes a space, a decimal digit of
    Unicode becomes its ASCII digit, anything else is refused.  The
    result is read as C reads a number: white space (tab to carriage
    return, and the space) around it is dropped, one sign is allowed, and
    the digits may be grouped by single underscores. *)
Definition c_isspace (c : ascii) : bool :=
  ((9 <=? byte c) && (byte c <=? 13)) || (byte c =? 32).

Fixpoint c_lstrip (s : string) : string :=
  match s with
  | EmptyString => EmptyString
  | String c r => if c_isspace c then c_lstrip r else s
  end.

Definition c_strip (s : string) : string :=
  String.rev (c_lstrip (String.rev (c_lstrip s))).

Definition ascii_of_char `{Codec} (ch : string) : option string :=
  let cp := code_point ch in
  if cp <? 0 then None
  else if cp <? 127 then Some ch
  else if isspace cp then Some " "%string
  else match unicode_decimal cp with
       | Some d => Some (String (ascii_of_nat (48 + Z.to_nat d)) EmptyString)
       | None => None
       end.

Fixpoint to_ascii `{Codec} (cs : list string) : option string :=
  match cs with
  | [] => Some EmptyString
  | ch :: r =>
      match ascii_of_char ch, to_ascii r with
      | Some h, Some t => Some (h +:+ t)
      | _, _ => None
      end
  end.

Definition digit_of (c : ascii) : option Z :=
  if (48 <=? byte c) && (byte c <=? 57) then Some (byte c - 48) else None.

Fixpoint int_digits (acc : Z) (after_digit : bool) (s : string) : option Z :=
  match s with
  | EmptyString => if after_digit then Some acc else None
  | String c r =>
      match digit_of c with
      | Some d => int_digits (10 * acc + d) true r
      | None =>
          if Ascii.eqb c "_"%char && after_digit then int_digits acc false r
          else None
      end
  end.

Fixpoint count_digits (s : string) : nat :=
  match s with
  | EmptyString => O
  | String c r => match digit_of c with
                  | Some _ => S (count_digits r)
                  | None => count_digits r
                  end
  end.

Definition within_digit_limit `{Codec} (s : string) : bool :=
  (int_max_str_digits =? 0)%nat || (count_digits s <=? int_max_str_digits)%nat.

Definition int_of_string `{Codec} (s : string) : option Z :=
  match to_ascii (chars s) with
  | None => None
  | Some a =>
      let signed (body : string) : option Z :=
        if within_digit_limit body then int_digits 0 false body else None in
      match c_strip a with
      | String "-" r => Z.opp <$> signed r
      | String "+" r => signed r
      | t => signed t
      end
  end.

(** [int(s)]: the conversion or a [ValueError].  [new_site] does not
    catch it and nothing looks at its text, which is shortened here. *)
Definition int `{Codec} (s : string) : value + exn :=
  match int_of_string s with
  | Some n => inl (VInt n)
  | None => inr (ValueError ("invalid literal for int() with base 10: " +:+ s))
  end.

(** ** The application *)

Module App.
Section Handlers.
Context `{Codec}.

Definition CONFIG_DIR : string := "/opt/brewnix/config/sites".
Definition USB_DIR : string := "/opt/brewnix/bootstrap".
Definition REPO_DIR : string := "/opt/brewnix".

(** A dictionary display [{k1: v1, ...}]; of two entries with one key
    the later one stays. *)
Definition dict (kvs : list (string * value)) : value :=
  VDict (list_to_map (rev ((fun kv => (KStr (fst kv), snd kv)) <$> kvs))).

(** The text of the [TypeError] that [config[key] = item] raises on an
    object that is no dictionary. *)
Definition no_item_assignment (config : value) : string :=
  match config with
  | VNone => "'NoneType' object does not support item assignment"
  | VBool _ => "'bool' object does not support item assignment"
  | VInt _ => "'int' object does not support item assignment"
  | VStr _ => "'str' object does not support item assignment"
  | VList _ => "list indices must be integers or slices, not str"
  | VOther type_name _ =>
      "'" +:+ type_name +:+ "' object does not support item assignment"
  | VDict _ => ""
  end.

(** [config[key] = item]: only a dictionary takes the assignment. *)
Definition setitem (config : value) (key : string) (item : value) : M value :=
  match config with
  | VDict d => ret (VDict (<[KStr key := item]> d))
  | _ => raise (TypeError (no_item_assignment config))
  end.

(** The body of the loop of [sites]: one file is read, decoded and
    tagged with its file name. *)
Definition load_entry (name : string) : M value :=
  text <- read_file name ;;
  config <- lift (yaml_safe_load text) ;;
  setitem config "filename" (VStr name).

Fixpoint sites_loop (names : list string) (sites : list value) : M (list value) :=
  match names with
  | [] => ret sites
  | config_file :: rest =>
      config <- load_entry config_file ;;
      sites_loop rest (sites ++ [config])
  end.

(** [GET /sites] *)
Definition sites : M response :=
  present <- config_dir_exists ;;
  sites <- (if present then names <- glob_yml ;; sites_loop names []
            else ret []) ;;
  ret (Render "sites.html" [("sites", VList sites)]).

(** The dictionary that [new_site] builds from the submitted form; the
    fields are read in the order of the literal. *)
Definition site_config_of_form (req : request) : M value :=
  site_name <- form_get req "site_name" ;;
  vlan_text <- form_get req "vlan_id" ;;
  vlan_id <- lift (int vlan_text) ;;
  ip_range <- form_get req "ip_range" ;;
  let system_disks := form_getlist "system_disks" (form req) in
  let data_disks := form_getlist "data_disks" (form req) in
  raid_level <- form_get req "raid_level" ;;
  api_host <- form_get req "api_host" ;;
  api_user <- form_get req "api_user" ;;
  ret (dict [
    ("site_name", VStr site_name);
    ("network", dict [("vlan_id", vlan_id); ("ip_range", VStr ip_range)]);
    ("storage", dict [("system_disks", VList (VStr <$> system_disks));
                      ("data_disks", VList (VStr <$> data_disks));
                      ("raid_level", VStr raid_level)]);
    ("proxmox", dict [("api_host", VStr api_host); ("api_user", VStr api_user)])
  ]).

(** The three file-system steps by which [new_site] saves a document:
    the directory is made, the file is opened for writing at its final
    name, the text is written. *)
Definition save_steps (file_name text : string) : list (M unit) :=
  [ mkdir_config_dir; open_w file_name; write_close file_name text ].

Fixpoint run_steps (steps : list (M unit)) : M unit :=
  match steps with
  | [] => ret tt
  | s :: rest => s ;; run_steps rest
  end.

(** [GET, POST /sites/new] *)
Definition new_site (req : request) : M response :=
  if String.eqb (method req) "POST" then
    site_config <- site_config_of_form req ;;
    site_name <- form_get req "site_name" ;;
    let config_file := site_name +:+ ".yml" in
    run_steps (save_steps config_file (yaml_dump site_config)) ;;
    flash "Site configuration created successfully!" "message" ;;
    ret (Redirect (url_for "sites"))
  else ret (Render "site_form.html" []).

(** The argument vector of the media tool. *)
Definition create_usb_argv (site_name usb_device : string) : list string :=
  [ "/opt/brewnix/vendor/proxmox-nas/bootstrap/create-nas-usb.sh";
    "--site-config"; "/opt/brewnix/config/sites/" +:+ site_name +:+ ".yml";
    "--usb-device"; usb_device ].

(** [POST /usb/create] *)
Definition create_usb (req : request) : M response :=
  site_name <- form_get req "site_name" ;;
  usb_device <- form_get req "usb_device" ;;
  try_except
    (result <- subprocess_run (create_usb_argv site_name usb_device)
                 (Some "/opt/brewnix") false None ;;
     if returncode result =? 0
     then flash "USB bootstrap drive created successfully!" "message"
     else flash ("Error creating USB drive: " +:+ stderr result) "error")
    (fun e => flash ("Error: " +:+ str_exn e) "error") ;;
  ret (Redirect (url_for "sites")).

(** The argument vector of the deployment run. *)
Definition deploy_argv (site_name : string) : list string :=
  [ "ansible-playbook";
    "/opt/brewnix/vendor/proxmox-nas/ansible/site.yml";
    "-e"; "site_config_file=/opt/brewnix/config/sites/" +:+ site_name +:+ ".yml" ].

(** [POST /deploy] *)
Definition deploy (req : request) : M response :=
  try_except
    (site_name <- form_get req "site_name" ;;
     result <- subprocess_run (deploy_argv site_name) (Some "/opt/brewnix") false None ;;
     if returncode result =? 0
     then flash "Deployment completed successfully!" "message"
     else flash ("Deployment failed: " +:+ stderr result) "error")
    (fun e => flash ("Error: " +:+ str_exn e) "error") ;;
  ret (Redirect (url_for "dashboard")).

(** [get_system_info()] *)
Definition get_system_info : M value :=
  try_except
    (zfs_result <- subprocess_run ["zpool"; "status"; "-j"] None false None ;;
     zfs_status <- (if returncode zfs_result =? 0
                    then lift (json_loads (stdout zfs_result))
                    else ret (dict [])) ;;
     df_result <- subprocess_run ["df"; "-h"; "/"] None false None ;;
     let disk_usage := strip (stdout df_result) in
     mem_result <- subprocess_run ["free"; "-h"] None false None ;;
     let memory := strip (stdout mem_result) in
     fun w =>
       (Ret (dict [ ("hostname", VStr (w_hostname w));
                    ("zfs_pools", zfs_status);
                    ("disk_usage", VStr disk_usage);
                    ("memory", VStr memory);
                    ("timestamp", VStr (w_now w)) ]), w))
    (fun e => ret (dict [("error", VStr (str_exn e))])).

(** The fixed inventory returned by [get_proxmox_status]. *)
Definition mock_inventory : value :=
  dict [
    ("vms", VList [
       dict [("name", VStr "truenas"); ("status", VStr "running"); ("vmid", VInt 100)];
       dict [("name", VStr "nextcloud"); ("status", VStr "running"); ("vmid", VInt 101)] ]);
    ("containers", VList [
       dict [("name", VStr "monitoring"); ("status", VStr "running"); ("vmid", VInt 200)] ])
  ].

(** [get_proxmox_status()] *)
Definition get_proxmox_status : M value :=
  try_except
    (ret mock_inventory)
    (fun e => ret (dict [("error", VStr (str_exn e))])).

(** [get_git_status()] *)
Definition get_git_status : M value :=
  try_except
    (status_result <- subprocess_run ["git"; "status"; "--porcelain"]
                        (Some REPO_DIR) false None ;;
     let git_status := strip (stdout status_result) in
     log_result <- subprocess_run ["git"; "log"; "--oneline"; "-5"]
                     (Some REPO_DIR) false None ;;
     let recent_commits := strip (stdout log_result) in
     ret (dict [ ("status", VStr git_status);
                 ("recent_commits",
                  VList (if String.eqb recent_commits "" then []
                         else VStr <$> split "010"%char recent_commits)) ]))
    (fun e => ret (dict [("error", VStr (str_exn e))])).

(** [GET /] *)
Definition dashboard : M response :=
  try_except
    (system_info <- get_system_info ;;
     vm_status <- get_proxmox_status ;;
     git_status <- get_git_status ;;
     ret (Render "dashboard.html"
            [ ("system_info", system_info);
              ("vm_status", vm_status);
              ("git_status", git_status) ]))
    (fun e => ret (Render "error.html" [("error", VStr (str_exn e))])).

(** [GET /api/status] *)
Definition api_status : M response :=
  info <- get_system_info ;; ret (Json info).

(** [GET /api/vms] *)
Definition api_vms : M response :=
  vms <- get_proxmox_status ;; ret (Json vms).

End Handlers.
End App.

(** ** Test doubles

    Stand-ins for the libraries and the external tools, and the two
    submissions used in the examples.  The texts are the documents that
    PyYAML prints for the two records. *)

Module Fixtures.
Import App.

Definition lab1_form : list (string * string) :=
  [ ("site_name", "lab1"); ("vlan_id", "50"); ("ip_range", "10.0.50.0/24");
    ("system_disks", "/dev/sda");
    ("data_disks", "/dev/sdb"); ("data_disks", "/dev/sdc");
    ("raid_level", "raidz1");
    ("api_host", "pve.lab1.example"); ("api_user", "root@pam") ].

Definition lab1_config : value :=
  dict [
    ("site_name", VStr "lab1");
    ("network", dict [("vlan_id", VInt 50); ("ip_range", VStr "10.0.50.0/24")]);
    ("storage", dict [("system_disks", VList [VStr "/dev/sda"]);
                      ("data_disks", VList [VStr "/dev/sdb"; VStr "/dev/sdc"]);
                      ("raid_level", VStr "raidz1")]);
    ("proxmox", dict [("api_host", VStr "pve.lab1.example");
                      ("api_user", VStr "root@pam")]) ].

Definition lab1_yaml : string :=
"network:
  ip_range: 10.0.50.0/24
  vlan_id: 50
proxmox:
  api_host: pve.lab1.example
  api_user: root@pam
site_name: lab1
storage:
  data_disks:
  - /dev/sdb
  - /dev/sdc
  raid_level: raidz1
  system_disks:
  - /dev/sda
".

(** A submission with an empty site name and a negative VLAN id. *)
Definition anon_form : list (string * string) :=
  [ ("site_name", ""); ("vlan_id", "-5"); ("ip_range", "10.0.0.0/24");
    ("raid_level", "raidz1"); ("api_host", "pve"); ("api_user", "root@pam") ].

Definition anon_config : value :=
  dict [
    ("site_name", VStr "");
    ("network", dict [("vlan_id", VInt (-5)); ("ip_range", VStr "10.0.0.0/24")]);
    ("storage", dict [("system_disks", VList []);
                      ("data_disks", VList []);
                      ("raid_level", VStr "raidz1")]);
    ("proxmox", dict [("api_host", VStr "pve"); ("api_user", VStr "root@pam")]) ].

Definition anon_yaml : string :=
"network:
  ip_range: 10.0.0.0/24
  vlan_id: -5
proxmox:
  api_host: pve
  api_user: root@pam
site_name: ''
storage:
  data_disks: []
  raid_level: raidz1
  system_disks: []
".

(** The codec double knows the two documents above, the empty YAML
    document (which loads as [None]) and the empty JSON object; every
    other text is malformed for it. *)
Definition stub_json_loads (s : string) : value + exn :=
  if String.eqb (strip s) "{}" then inl (dict [])
  else inr (JSONDecodeError "Expecting value: line 1 column 1 (char 0)").

Definition stub_yaml_dump (v : value) : string :=
  match get_item v "site_name" with
  | Some (VStr "lab1") => lab1_yaml
  | Some (VStr "") => anon_yaml
  | _ => "{}
"
  end.

Definition stub_yaml_safe_load (s : string) : value + exn :=
  if String.eqb s "" then inl VNone
  else if String.eqb s lab1_yaml then inl lab1_config
  else if String.eqb s anon_yaml then inl anon_config
  else inr (YAMLError "could not parse the document").

(** Some of the decimal digits beyond ASCII: the Arabic-Indic digits
    and the full-width digits. *)
Definition stub_unicode_decimal (cp : Z) : option Z :=
  if (1632 <=? cp) && (cp <=? 1641) then Some (cp - 1632)
  else if (65296 <=? cp) && (cp <=? 65305) then Some (cp - 65296)
  else None.

#[export] Instance stub_codec : Codec := {|
  json_loads := stub_json_loads;
  yaml_dump := stub_yaml_dump;
  yaml_safe_load := stub_yaml_safe_load;
  unicode_decimal := stub_unicode_decimal;
  int_max_str_digits := 4300
|}.

(** Tool doubles. *)
Definition df_report : string :=
"Filesystem      Size  Used Avail Use% Mounted on
/dev/sda2        94G   12G   78G  14% /
".

Definition free_report : string :=
"               total        used        free
Mem:            31Gi       4.2Gi        25Gi
".

Definition git_log_report : string :=
"3f2a1bc Add lab1 site
9d8e7f6 Initial import
".

(** Every tool answers; the pool query prints an empty JSON object. *)
Definition tools_healthy (argv : list string) (cwd : option string) : behaviour :=
  match argv with
  | "zpool" :: _ => Exits 1 0 "{}" ""
  | "df" :: _ => Exits 1 0 df_report ""
  | "free" :: _ => Exits 1 0 free_report ""
  | "git" :: "status" :: _ => Exits 1 0 "" ""
  | "git" :: "log" :: _ => Exits 1 0 git_log_report ""
  | _ => Exits 1 0 "" ""
  end.





(** The playbook run fails for a configuration file that is not there. *)
Definition tools_playbook_fails (argv : list string) (cwd : option string) : behaviour :=
  match argv with
  | "ansible-playbook" :: _ => Exits 3 2 "" "ERROR! site_config_file does not exist"
  | _ => tools_healthy argv cwd
  end.

(** The playbook run exits with 0, but what it printed is not text. *)
Definition tools_playbook_garbled (argv : list string) (cwd : option string) : behaviour :=
  match argv with
  | "ansible-playbook" :: _ =>
      ExitsUndecodable 3 0
        "'utf-8' codec can't decode byte 0xff in position 0: invalid start byte"
  | _ => tools_healthy argv cwd
  end.

(** The playbook run never comes back. *)
Definition tools_playbook_hangs (argv : list string) (cwd : option string) : behaviour :=
  match argv with
  | "ansible-playbook" :: _ => NeverExits
  | _ => tools_healthy argv cwd
  end.

(** Worlds in which the file system enumerates names as they are held,
    the only directory elsewhere is [/tmp], and no file was written
    outside the store. *)
Definition world_with (dir : bool) (files : list (string * string))
    (tools : list string -> option string -> behaviour) : world :=
  World dir files tools [] [] "nas01" "2024-05-01T12:00:00"
        (fun _ => O) (fun path => bool_decide (path = ["tmp"])) [].

(** A fresh installation: no configuration directory yet. *)
Definition fresh_world : world := world_with false [] tools_healthy.

Definition post (f : list (string * string)) : request := Request "POST" f.

End Fixtures.

(** ** Predicates used in the statements *)

(** No call of the log was given a timeout. *)
Definition untimed (w : world) : Prop :=
  Forall (fun c => call_timeout c = None) (w_calls w).

(** A computation that only ever adds untimed calls. *)
Definition keeps_untimed {A} (m : M A) : Prop :=
  forall w, untimed w -> untimed (snd (m w)).

(** The call that [deploy] issues for a site name. *)
Definition deploy_call (site_name : string) : call :=
  Call (App.deploy_argv site_name) (Some "/opt/brewnix") false None.

(** The call that [create_usb] issues. *)
Definition create_usb_call (site_name usb_device : string) : call :=
  Call (App.create_usb_argv site_name usb_device) (Some "/opt/brewnix") false None.


(** The form fields that [new_site] indexes directly. *)
Definition required_fields : list string :=
  [ "site_name"; "vlan_id"; "ip_range"; "raid_level"; "api_host"; "api_user" ].

(** The record that [new_site] builds, as a function of its fields. *)
Definition site_record (site_name : string) (vlan_id : Z) (ip_range : string)
    (system_disks data_disks : list string)
    (raid_level api_host api_user : string) : value :=
  App.dict [
    ("site_name", VStr site_name);
    ("network", App.dict [("vlan_id", VInt vlan_id); ("ip_range", VStr ip_range)]);
    ("storage", App.dict [("system_disks", VList (VStr <$> system_disks));
                          ("data_disks", VList (VStr <$> data_disks));
                          ("raid_level", VStr raid_level)]);
    ("proxmox", App.dict [("api_host", VStr api_host); ("api_user", VStr api_user)])
  ].

(** A submission that [new_site] turns away while reading the form: a
    directly indexed field is missing, or the VLAN id is not an integer
    literal. *)
Definition ill_formed `{Codec} (req : request) : Prop :=
  (exists k, In k required_fields /\ form_first k (form req) = None)
  \/ (exists t, form_first "vlan_id" (form req) = Some t /\ int_of_string t = None).

(** The file names that [CONFIG_DIR.glob('*.yml')] enumerates. *)
Definition listed (w : world) : list string :=
  sort_by (w_rank w)
    (filter (fun n => endswith n ".yml" = true) (map fst (w_files w))).

(** A stored document as the listing presents it: the mapping it decodes
    to, tagged with the name of its file. *)
Definition tagged (name : string) (d : gmap key value) : value :=
  VDict (<[KStr "filename" := VStr name]> d).

(** The file [n] of the store holds a document that decodes to a mapping. *)
Definition holds_mapping `{Codec} (w : world) (n : string) : Prop :=
  exists text d,
    lookup_file n (w_files w) = Some text /\ yaml_safe_load text = inl (VDict d).

(** The failure marker of a status fragment. *)
Definition error_marker (e : exn) : value :=
  App.dict [("error", VStr (str_exn e))].

(** The populated system fragment. *)
Definition system_snapshot (hostname : string) (pools : value)
    (disk_usage memory timestamp : string) : value :=
  App.dict [ ("hostname", VStr hostname);
             ("zfs_pools", pools);
             ("disk_usage", VStr disk_usage);
             ("memory", VStr memory);
             ("timestamp", VStr timestamp) ].

(** The populated version-control fragment. *)
Definition git_snapshot (status log : string) : value :=
  App.dict [ ("status", VStr (strip status));
             ("recent_commits",
              VList (if String.eqb (strip log) "" then []
                     else VStr <$> split "010"%char (strip log))) ].

Definition zpool_argv : list string := ["zpool"; "status"; "-j"].
Definition df_argv : list string := ["df"; "-h"; "/"].
Definition free_argv : list string := ["free"; "-h"].
Definition git_status_argv : list string := ["git"; "status"; "--porcelain"].
Definition git_log_argv : list string := ["git"; "log"; "--oneline"; "-5"].

(** The call that a status query issues. *)
Definition status_call (argv : list string) (cwd : option string) : call :=
  Call argv cwd false None.

(** The pool field once the pool query has exited: the decoded output on
    exit 0, an empty mapping on any other exit code. *)
Definition pools_of `{Codec} (rc : Z) (out : string) : value + exn :=
  if rc =? 0 then json_loads out else inl (App.dict []).



(** ** Relations between the world before and after a computation *)

(** A computation whose final world is always related to its initial
    world by [R]. *)
Definition keeps (R : world -> world -> Prop) {A} (m : M A) : Prop :=
  forall w, R w (snd (m w)).

(** The configuration directory and its files are as they were. *)
Definition same_store (w w' : world) : Prop :=
  w_dir_exists w' = w_dir_exists w /\ w_files w' = w_files w.

(** No process was started. *)
Definition same_calls (w w' : world) : Prop := w_calls w' = w_calls w.

(** The programs that the handlers name in their argument vectors. *)
Definition known_programs : list string :=
  [ "/opt/brewnix/vendor/proxmox-nas/bootstrap/create-nas-usb.sh";
    "ansible-playbook"; "zpool"; "df"; "free"; "git" ].

(** A call that goes through no shell, waits without a timeout and
    starts one of the known programs. *)
Definition plain_call (c : call) : bool :=
  negb (call_shell c)
  && match call_timeout c with None => true | Some _ => false end
  && match call_argv c with
     | program :: _ => bool_decide (program ∈ known_programs)
     | [] => false
     end.

(** The log of calls has only grown, by plain calls. *)
Definition extends_calls (w w' : world) : Prop :=
  exists added, w_calls w' = w_calls w ++ added
                /\ Forall (fun c => plain_call c = true) added.

(** [sep.join(lines)] for the newline separator. *)
Fixpoint join_lines (lines : list string) : string :=
  match lines with
  | [] => ""
  | [l] => l
  | l :: rest => l +:+ String "010"%char (join_lines rest)
  end.

(** * Properties *)

(** ** The built-ins on concrete inputs *)

Example int_plain :
  int_of_string (H := Fixtures.stub_codec) "50" = Some 50
  /\ int_of_string (H := Fixtures.stub_codec) " -5 " = Some (-5)
  /\ int_of_string (H := Fixtures.stub_codec) "1_000" = Some 1000
  /\ int_of_string (H := Fixtures.stub_codec) "007" = Some 7.
Proof. repeat split; vm_compute; reflexivity. Qed.

Example int_bad :
  int_of_string (H := Fixtures.stub_codec) "1__0" = None
  /\ int_of_string (H := Fixtures.stub_codec) "" = None
  /\ int_of_string (H := Fixtures.stub_codec) "x1" = None
  /\ int_of_string (H := Fixtures.stub_codec) "4_" = None
  /\ int_of_string (H := Fixtures.stub_codec) "- 5" = None.
Proof. repeat split; vm_compute; reflexivity. Qed.

(** The separators 28..31 are white space for [strip] but not for [int];
    a no-break space (bytes 194 160) and an Arabic-Indic five (bytes 217
    165) are read by [int]. *)
Example int_unicode :
  let text (l : list nat) := string_of_list_ascii (map ascii_of_nat l) in
  int_of_string (H := Fixtures.stub_codec) (text [28; 53; 31]%nat) = None
  /\ int_of_string (H := Fixtures.stub_codec) (text [194; 160; 53]%nat) = Some 5
  /\ int_of_string (H := Fixtures.stub_codec) (text [217; 165]%nat) = Some 5.
Proof. repeat split; vm_compute; reflexivity. Qed.

Example strip_unicode :
  let text (l : list nat) := string_of_list_ascii (map ascii_of_nat l) in
  strip (text [28; 32; 97; 32; 98; 10; 31]%nat) = "a b"
  /\ strip (text [194; 160; 97; 226; 128; 131; 194; 133]%nat) = "a"
  /\ strip (text [195; 169; 32]%nat) = text [195; 169]%nat.
Proof. repeat split; vm_compute; reflexivity. Qed.

Example strip_ex : strip "  a b
 " = "a b".
Proof. reflexivity. Qed.

Example split_ex : split "/" "a/b//c" = ["a"; "b"; ""; "c"]%string.
Proof. reflexivity. Qed.

Example endswith_ex : endswith "lab1.yml" ".yml" = true /\ endswith "yml" ".yml" = false.
Proof. split; reflexivity. Qed.

(** ** Laws of the monad and of the primitive operations *)

Section Laws.
Context {A B : Type}.

Lemma bind_of_ret (m : M A) (k : A -> M B) (w w' : world) (a : A) :
  m w = (Ret a, w') -> bind m k w = k a w'.
Proof. intros E. unfold bind. rewrite E. reflexivity. Qed.

Lemma bind_of_raise (m : M A) (k : A -> M B) (w w' : world) (e : exn) :
  m w = (Raise e, w') -> bind m k w = (Raise e, w').
Proof. intros E. unfold bind. rewrite E. reflexivity. Qed.

Lemma bind_of_blocked (m : M A) (k : A -> M B) (w w' : world) :
  m w = (Blocked, w') -> bind m k w = (Blocked, w').
Proof. intros E. unfold bind. rewrite E. reflexivity. Qed.

Lemma try_of_ret (m : M A) (h : exn -> M A) (w w' : world) (a : A) :
  m w = (Ret a, w') -> try_except m h w = (Ret a, w').
Proof. intros E. unfold try_except. rewrite E. reflexivity. Qed.

Lemma try_of_raise (m : M A) (h : exn -> M A) (w w' : world) (e : exn) :
  m w = (Raise e, w') -> try_except m h w = h e w'.
Proof. intros E. unfold try_except. rewrite E. reflexivity. Qed.

Lemma try_of_blocked (m : M A) (h : exn -> M A) (w w' : world) :
  m w = (Blocked, w') -> try_except m h w = (Blocked, w').
Proof. intros E. unfold try_except. rewrite E. reflexivity. Qed.

End Laws.

Lemma form_get_present (req : request) (key v : string) (w : world) :
  form_first key (form req) = Some v -> form_get req key w = (Ret v, w).
Proof. intros E. unfold form_get. rewrite E. reflexivity. Qed.

Lemma form_get_absent (req : request) (key : string) (w : world) :
  form_first key (form req) = None ->
  form_get req key w = (Raise (BadRequestKeyError key), w).
Proof. intros E. unfold form_get. rewrite E. reflexivity. Qed.

Lemma run_exits (argv : list string) (cwd : option string) (w : world)
    (d rc : Z) (out err : string) :
  w_tools w argv cwd = Exits d rc out err ->
  subprocess_run argv cwd false None w
  = (Ret (Completed rc out err), add_call (Call argv cwd false None) w).
Proof. intros E. unfold subprocess_run, started. rewrite E. reflexivity. Qed.

Lemma run_never_exits (argv : list string) (cwd : option string) (w : world) :
  w_tools w argv cwd = NeverExits ->
  subprocess_run argv cwd false None w
  = (Blocked, add_call (Call argv cwd false None) w).
Proof. intros E. unfold subprocess_run, started. rewrite E. reflexivity. Qed.

Lemma run_launch_fails (argv : list string) (cwd : option string) (w : world)
    (e : exn) :
  w_tools w argv cwd = LaunchFails e ->
  subprocess_run argv cwd false None w
  = (Raise e, add_call (Call argv cwd false None) w).
Proof. intros E. unfold subprocess_run, started. rewrite E. reflexivity. Qed.

(** Whatever the program does, an untimed run logs exactly its call. *)
Lemma run_logs (argv : list string) (cwd : option string) (shell : bool)
    (w : world) :
  snd (subprocess_run argv cwd shell None w) = add_call (Call argv cwd shell None) w.
Proof.
  unfold subprocess_run. destruct (w_tools w (started argv shell) cwd); reflexivity.
Qed.

(** ** The inventory stub *)

Section Inventory.
Import App.

(** C10. The inventory poll is a constant function: in every state of the
    world it returns the same fixed inventory (virtual machines truenas
    100 and nextcloud 101, container monitoring 200, all running), leaves
    the world as it was, and its result is never the error marker. *)
Theorem get_proxmox_status_constant (w : world) :
  get_proxmox_status w = (Ret mock_inventory, w)
  /\ get_item mock_inventory "vms" = Some (VList [
       dict [("name", VStr "truenas"); ("status", VStr "running"); ("vmid", VInt 100)];
       dict [("name", VStr "nextcloud"); ("status", VStr "running"); ("vmid", VInt 101)] ])
  /\ get_item mock_inventory "containers" = Some (VList [
       dict [("name", VStr "monitoring"); ("status", VStr "running"); ("vmid", VInt 200)] ])
  /\ get_item mock_inventory "error" = None.
Proof. repeat split; reflexivity. Qed.

End Inventory.

(** ** Command construction *)

Section Commands.
Import App.

(** C2. Whatever text the site name holds, [create_usb] issues exactly
    one run; its vector has five arguments, the tool path and the two
    option names are constants, the site name sits literally between the
    directory prefix and the extension of the third argument and the
    device is the fifth; no shell interprets the vector. *)
Theorem create_usb_command_structure (req : request) (w : world)
    (site_name usb_device : string) :
  form_first "site_name" (form req) = Some site_name ->
  form_first "usb_device" (form req) = Some usb_device ->
  exists c : call,
    w_calls (snd (create_usb req w)) = w_calls w ++ [c]
    /\ call_shell c = false
    /\ call_argv c =
         [ "/opt/brewnix/vendor/proxmox-nas/bootstrap/create-nas-usb.sh";
           "--site-config";
           "/opt/brewnix/config/sites/" +:+ site_name +:+ ".yml";
           "--usb-device";
           usb_device ]
    /\ length (call_argv c) = 5%nat
    /\ (forall (other : string) (i : nat), i <> 2%nat ->
          call_argv c !! i = create_usb_argv other usb_device !! i).
Proof.
  intros Hs Hd.
  exists (Call (create_usb_argv site_name usb_device) (Some "/opt/brewnix") false None).
  split; [| split; [reflexivity | split; [reflexivity | split; [reflexivity |]]]].
  - unfold create_usb.
    rewrite (bind_of_ret _ _ w w site_name (form_get_present _ _ _ _ Hs)).
    rewrite (bind_of_ret _ _ w w usb_device (form_get_present _ _ _ _ Hd)).
    unfold bind at 1, try_except, bind.
    pose proof (run_logs (create_usb_argv site_name usb_device)
                  (Some "/opt/brewnix") false w) as L.
    destruct (subprocess_run _ _ false None w) as [[r | e |] w1]; simpl in L; subst w1.
    + destruct (returncode r =? 0); reflexivity.
    + reflexivity.
    + reflexivity.
  - intros other i Hi. destruct i as [| [| [| i]]]; try reflexivity.
    congruence.
Qed.

(** The site name of the specification, shell metacharacters included,
    reaches the tool as part of one argument. *)
Lemma create_usb_command_structure_witness :
  exists c : call,
    w_calls (snd (create_usb
       (Fixtures.post [("site_name", "; rm -rf /"); ("usb_device", "/dev/sdz")])
       Fixtures.fresh_world)) = [] ++ [c]
    /\ call_shell c = false
    /\ call_argv c =
         [ "/opt/brewnix/vendor/proxmox-nas/bootstrap/create-nas-usb.sh";
           "--site-config";
           "/opt/brewnix/config/sites/" +:+ "; rm -rf /" +:+ ".yml";
           "--usb-device";
           "/dev/sdz" ]
    /\ length (call_argv c) = 5%nat
    /\ (forall (other : string) (i : nat), i <> 2%nat ->
          call_argv c !! i = create_usb_argv other "/dev/sdz" !! i).
Proof.
  apply (create_usb_command_structure
           (Fixtures.post [("site_name", "; rm -rf /"); ("usb_device", "/dev/sdz")])
           Fixtures.fresh_world "; rm -rf /" "/dev/sdz"); reflexivity.
Defined.

End Commands.

(** ** Deployment *)

Section Deploy.
Import App.

(** What [deploy] does, by the behaviour of the playbook run. *)
Lemma deploy_by_behaviour (req : request) (w : world) (s : string) :
  form_first "site_name" (form req) = Some s ->
  deploy req w =
    match w_tools w (deploy_argv s) (Some "/opt/brewnix") with
    | Exits _ rc _ err =>
        (Ret (Redirect "/"),
         add_flash (if rc =? 0
                    then ("Deployment completed successfully!", "message")
                    else ("Deployment failed: " +:+ err, "error"))
                   (add_call (deploy_call s) w))
    | ExitsUndecodable _ _ reason =>
        (Ret (Redirect "/"),
         add_flash ("Error: " +:+ reason, "error") (add_call (deploy_call s) w))
    | LaunchFails e =>
        (Ret (Redirect "/"),
         add_flash ("Error: " +:+ str_exn e, "error") (add_call (deploy_call s) w))
    | NeverExits => (Blocked, add_call (deploy_call s) w)
    end.
Proof.
  intros Hs. unfold deploy, bind at 1, try_except.
  rewrite (bind_of_ret _ _ w w s (form_get_present _ _ _ _ Hs)).
  unfold bind, subprocess_run, started, deploy_call.
  destruct (w_tools w (deploy_argv s) (Some "/opt/brewnix"))
    as [d rc out err | d rc reason | | e];
    simpl; [destruct (rc =? 0) |..]; reflexivity.
Qed.

(** What [create_usb] does, by the behaviour of the media tool. *)
Lemma create_usb_by_behaviour (req : request) (w : world) (s dev : string) :
  form_first "site_name" (form req) = Some s ->
  form_first "usb_device" (form req) = Some dev ->
  create_usb req w =
    match w_tools w (create_usb_argv s dev) (Some "/opt/brewnix") with
    | Exits _ rc _ err =>
        (Ret (Redirect "/sites"),
         add_flash (if rc =? 0
                    then ("USB bootstrap drive created successfully!", "message")
                    else ("Error creating USB drive: " +:+ err, "error"))
                   (add_call (create_usb_call s dev) w))
    | ExitsUndecodable _ _ reason =>
        (Ret (Redirect "/sites"),
         add_flash ("Error: " +:+ reason, "error")
                   (add_call (create_usb_call s dev) w))
    | LaunchFails e =>
        (Ret (Redirect "/sites"),
         add_flash ("Error: " +:+ str_exn e, "error")
                   (add_call (create_usb_call s dev) w))
    | NeverExits => (Blocked, add_call (create_usb_call s dev) w)
    end.
Proof.
  intros Hs Hd. unfold create_usb.
  rewrite (bind_of_ret _ _ w w s (form_get_present _ _ _ _ Hs)).
  rewrite (bind_of_ret _ _ w w dev (form_get_present _ _ _ _ Hd)).
  unfold bind at 1, try_except, bind, subprocess_run, started, create_usb_call.
  destruct (w_tools w (create_usb_argv s dev) (Some "/opt/brewnix"))
    as [d rc out err | d rc reason | | e];
    simpl; [destruct (rc =? 0) |..]; reflexivity.
Qed.

(** C7, as stated, fails: the playbook run exits with 0, but what it
    printed is not text in the encoding of the locale; reading the
    captured output raises, and [deploy] flashes the text of that
    exception in the category [error] instead of the success message. *)
Lemma deploy_exit_zero_with_undecodable_output :
  let w := Fixtures.world_with true [("lab1.yml", Fixtures.lab1_yaml)]
             Fixtures.tools_playbook_garbled in
  let r := deploy (Fixtures.post [("site_name", "lab1")]) w in
  w_tools w (deploy_argv "lab1") (Some REPO_DIR)
  = ExitsUndecodable 3 0
      "'utf-8' codec can't decode byte 0xff in position 0: invalid start byte"
  /\ fst r = Ret (Redirect "/")
  /\ w_flashes (snd r)
     = [("Error: 'utf-8' codec can't decode byte 0xff in position 0: invalid start byte",
         "error")].
Proof. repeat split; reflexivity. Qed.

(** C7, amended. For a site name [s], stored or not, [deploy] runs
    exactly the vector [ansible-playbook <playbook> -e
    site_config_file=<dir>/s.yml] in the installation directory.  When
    the run exits and its captured output is text, exit code 0 flashes
    the success message alone, in the default category, and any other
    exit code flashes the captured standard error in the category
    [error].  When the captured output is not text, whatever the exit
    code, the message flashed is the text of the decoding error, in the
    category [error]. *)
Theorem deploy_invocation_and_outcome (req : request) (w : world) (s : string) :
  form_first "site_name" (form req) = Some s ->
  deploy_argv s =
    [ "ansible-playbook"; "/opt/brewnix/vendor/proxmox-nas/ansible/site.yml";
      "-e"; "site_config_file=" +:+ CONFIG_DIR +:+ "/" +:+ s +:+ ".yml" ]
  /\ w_calls (snd (deploy req w))
     = w_calls w ++ [Call (deploy_argv s) (Some REPO_DIR) false None]
  /\ (forall d rc out err,
        w_tools w (deploy_argv s) (Some REPO_DIR) = Exits d rc out err ->
        fst (deploy req w) = Ret (Redirect (url_for "dashboard"))
        /\ (rc = 0 ->
            w_flashes (snd (deploy req w))
            = w_flashes w ++ [("Deployment completed successfully!", "message")])
        /\ (rc <> 0 ->
            w_flashes (snd (deploy req w))
            = w_flashes w ++ [("Deployment failed: " +:+ err, "error")]))
  /\ (forall d rc reason,
        w_tools w (deploy_argv s) (Some REPO_DIR) = ExitsUndecodable d rc reason ->
        fst (deploy req w) = Ret (Redirect (url_for "dashboard"))
        /\ w_flashes (snd (deploy req w))
           = w_flashes w ++ [("Error: " +:+ reason, "error")]).
Proof.
  intros Hs. rewrite (deploy_by_behaviour req w s Hs).
  change (Some "/opt/brewnix") with (Some REPO_DIR).
  split; [reflexivity | split; [| split]].
  - destruct (w_tools w (deploy_argv s) (Some REPO_DIR)); reflexivity.
  - intros d rc out err Ht. rewrite Ht. repeat split.
    + intros ->. reflexivity.
    + intros Hrc. apply Z.eqb_neq in Hrc. simpl. rewrite Hrc. reflexivity.
  - intros d rc reason Ht. rewrite Ht. split; reflexivity.
Qed.

(** The scenario of the specification: [lab1] is stored, the run exits
    with 0 and prints text. *)
Lemma deploy_invocation_and_outcome_witness :
  let w := Fixtures.world_with true [("lab1.yml", Fixtures.lab1_yaml)]
             Fixtures.tools_healthy in
  let req := Fixtures.post [("site_name", "lab1")] in
  w_calls (snd (deploy req w))
  = w_calls w ++ [Call (deploy_argv "lab1") (Some REPO_DIR) false None]
  /\ fst (deploy req w) = Ret (Redirect (url_for "dashboard"))
  /\ w_flashes (snd (deploy req w))
     = w_flashes w ++ [("Deployment completed successfully!", "message")].
Proof.
  intros w req.
  destruct (deploy_invocation_and_outcome req w "lab1") as (_ & Hc & Hexit & _);
    [reflexivity |].
  destruct (Hexit 1 0 "" "") as (Hr & Hok & _); [reflexivity |].
  split; [exact Hc | split; [exact Hr | exact (Hok eq_refl)]].
Defined.

(** C3, as stated, fails: for a site that was never saved the playbook
    run is started all the same (one call is logged) and the handler
    reports what the tool reports. *)
Lemma deploy_missing_site_runs_tool :
  let w := Fixtures.world_with false [] Fixtures.tools_playbook_fails in
  let r := deploy (Fixtures.post [("site_name", "missing-site")]) w in
  lookup_file "missing-site.yml" (w_files w) = None
  /\ fst r = Ret (Redirect "/")
  /\ length (w_calls (snd r)) = 1%nat
  /\ w_flashes (snd r)
     = [("Deployment failed: ERROR! site_config_file does not exist", "error")].
Proof. repeat split; reflexivity. Qed.

(** C3, amended. [deploy] never consults the store: for a site name
    without a persisted record it still issues exactly one run, with the
    usual vector, leaves the store untouched, and its outcome is the one
    the tool determines (when the captured output is text: the success
    message on exit 0 and the failure message with the captured standard
    error otherwise; the decoding error when the output is not text; the
    launch error when the tool cannot be started); no separate not-found
    result exists. *)
Theorem deploy_runs_tool_without_lookup (req : request) (w : world) (s : string) :
  form_first "site_name" (form req) = Some s ->
  lookup_file (s +:+ ".yml") (w_files w) = None ->
  w_calls (snd (deploy req w)) = w_calls w ++ [deploy_call s]
  /\ length (w_calls (snd (deploy req w))) = S (length (w_calls w))
  /\ w_files (snd (deploy req w)) = w_files w
  /\ w_dir_exists (snd (deploy req w)) = w_dir_exists w
  /\ match w_tools w (deploy_argv s) (Some "/opt/brewnix") with
     | Exits _ rc _ err =>
         fst (deploy req w) = Ret (Redirect "/")
         /\ w_flashes (snd (deploy req w))
            = w_flashes w ++ [if rc =? 0
                              then ("Deployment completed successfully!", "message")
                              else ("Deployment failed: " +:+ err, "error")]
     | ExitsUndecodable _ _ reason =>
         fst (deploy req w) = Ret (Redirect "/")
         /\ w_flashes (snd (deploy req w))
            = w_flashes w ++ [("Error: " +:+ reason, "error")]
     | LaunchFails e =>
         fst (deploy req w) = Ret (Redirect "/")
         /\ w_flashes (snd (deploy req w))
            = w_flashes w ++ [("Error: " +:+ str_exn e, "error")]
     | NeverExits => fst (deploy req w) = Blocked
     end.
Proof.
  intros Hs _. rewrite (deploy_by_behaviour req w s Hs).
  destruct (w_tools w (deploy_argv s) (Some "/opt/brewnix"))
    as [d rc out err | d rc reason | | e];
    simpl; rewrite ?length_app; simpl; repeat split; lia.
Qed.

Lemma deploy_runs_tool_without_lookup_witness :
  let w := Fixtures.world_with false [] Fixtures.tools_playbook_fails in
  let req := Fixtures.post [("site_name", "missing-site")] in
  w_calls (snd (deploy req w)) = [deploy_call "missing-site"]
  /\ fst (deploy req w) = Ret (Redirect "/").
Proof.
  intros w req.
  destruct (deploy_runs_tool_without_lookup req w "missing-site")
    as (Hc & _ & _ & _ & Hr); [reflexivity | reflexivity |].
  split; [exact Hc | exact (proj1 Hr)].
Defined.

End Deploy.

(** ** Waiting for external tools *)

Section Waiting.
Import App.

Lemma untimed_add_call (c : call) (w : world) :
  call_timeout c = None -> untimed w -> untimed (add_call c w).
Proof.
  unfold untimed. simpl. intros Hc Hw. apply Forall_app. split; [exact Hw |].
  constructor; [exact Hc | constructor].
Qed.

Lemma keeps_untimed_ret {A} (a : A) : keeps_untimed (ret a).
Proof. intros w Hw. exact Hw. Qed.

Lemma keeps_untimed_raise {A} (e : exn) : keeps_untimed (@raise A e).
Proof. intros w Hw. exact Hw. Qed.

Lemma keeps_untimed_bind {A B} (m : M A) (k : A -> M B) :
  keeps_untimed m -> (forall a, keeps_untimed (k a)) -> keeps_untimed (bind m k).
Proof.
  intros Hm Hk w Hw. unfold bind. specialize (Hm w Hw).
  destruct (m w) as [[a | e |] w1]; simpl in *; [apply Hk | |]; assumption.
Qed.

Lemma keeps_untimed_try {A} (m : M A) (h : exn -> M A) :
  keeps_untimed m -> (forall e, keeps_untimed (h e)) -> keeps_untimed (try_except m h).
Proof.
  intros Hm Hh w Hw. unfold try_except. specialize (Hm w Hw).
  destruct (m w) as [[a | e |] w1]; simpl in *; [| apply Hh |]; assumption.
Qed.

Lemma keeps_untimed_run (argv : list string) (cwd : option string) (shell : bool) :
  keeps_untimed (subprocess_run argv cwd shell None).
Proof.
  intros w Hw. rewrite run_logs. apply untimed_add_call; [reflexivity | exact Hw].
Qed.

Lemma keeps_untimed_flash (m c : string) : keeps_untimed (flash m c).
Proof. intros w Hw. exact Hw. Qed.

Lemma keeps_untimed_form_get (req : request) (k : string) :
  keeps_untimed (form_get req k).
Proof.
  intros w Hw. unfold form_get. destruct (form_first k (form req)); exact Hw.
Qed.

Lemma keeps_untimed_lift {A} (r : A + exn) : keeps_untimed (lift r).
Proof. intros w Hw. destruct r; exact Hw. Qed.

Lemma keeps_untimed_if {A} (b : bool) (m1 m2 : M A) :
  keeps_untimed m1 -> keeps_untimed m2 -> keeps_untimed (if b then m1 else m2).
Proof. destruct b; auto. Qed.

Lemma keeps_untimed_read {A} (f : world -> A) :
  keeps_untimed (fun w => (Ret (f w), w)).
Proof. intros w Hw. exact Hw. Qed.

Create HintDb untimed.
#[local] Hint Resolve keeps_untimed_ret keeps_untimed_raise keeps_untimed_run
  keeps_untimed_flash keeps_untimed_form_get keeps_untimed_lift
  keeps_untimed_read : untimed.

Ltac untimed_step :=
  first [ apply keeps_untimed_bind; [| intros ?]
        | apply keeps_untimed_try; [| intros ?]
        | apply keeps_untimed_if
        | solve [auto with untimed] ].

Context `{Codec}.

Lemma keeps_untimed_create_usb (req : request) : keeps_untimed (create_usb req).
Proof. unfold create_usb. repeat untimed_step. Qed.

Lemma keeps_untimed_deploy (req : request) : keeps_untimed (deploy req).
Proof. unfold deploy. repeat untimed_step. Qed.

Lemma keeps_untimed_system_info : keeps_untimed get_system_info.
Proof. unfold get_system_info. repeat untimed_step. Qed.

Lemma keeps_untimed_git_status : keeps_untimed get_git_status.
Proof. unfold get_git_status. repeat untimed_step. Qed.

Lemma keeps_untimed_proxmox_status : keeps_untimed get_proxmox_status.
Proof. unfold get_proxmox_status. repeat untimed_step. Qed.

Lemma keeps_untimed_dashboard : keeps_untimed dashboard.
Proof.
  unfold dashboard.
  apply keeps_untimed_try; [| intros ?; auto with untimed].
  apply keeps_untimed_bind; [apply keeps_untimed_system_info | intros ?].
  apply keeps_untimed_bind; [apply keeps_untimed_proxmox_status | intros ?].
  apply keeps_untimed_bind; [apply keeps_untimed_git_status | intros ?].
  auto with untimed.
Qed.

(** C4, as stated, fails: a playbook run that never exits blocks
    [deploy] for good; the one call that was issued carries no timeout,
    and nothing is reported. *)
Lemma deploy_blocks_on_hanging_tool :
  let w := Fixtures.world_with true [("lab1.yml", Fixtures.lab1_yaml)]
             Fixtures.tools_playbook_hangs in
  let r := deploy (Fixtures.post [("site_name", "lab1")]) w in
  fst r = Blocked
  /\ w_calls (snd r) = [Call (deploy_argv "lab1") (Some "/opt/brewnix") false None]
  /\ w_flashes (snd r) = [].
Proof. repeat split; reflexivity. Qed.

(** C4, amended. No invocation is given a timeout: every call that
    [create_usb], [deploy], [get_system_info], [get_git_status] or
    [dashboard] adds to the log is untimed.  Accordingly a tool that
    exits, after whatever time and whatever it printed, or that cannot be
    started lets [deploy] and [create_usb] return, and a tool that never
    exits blocks them forever; there is no timed-out result. *)
Theorem handlers_wait_without_timeout (req : request) (w : world)
    (s dev : string) :
  form_first "site_name" (form req) = Some s ->
  form_first "usb_device" (form req) = Some dev ->
  untimed w ->
  (untimed (snd (create_usb req w))
   /\ untimed (snd (deploy req w))
   /\ untimed (snd (get_system_info w))
   /\ untimed (snd (get_git_status w))
   /\ untimed (snd (dashboard w)))
  /\ match w_tools w (deploy_argv s) (Some "/opt/brewnix") with
     | Exits _ _ _ _ | ExitsUndecodable _ _ _ | LaunchFails _ =>
         fst (deploy req w) = Ret (Redirect "/")
     | NeverExits => fst (deploy req w) = Blocked
     end
  /\ match w_tools w (create_usb_argv s dev) (Some "/opt/brewnix") with
     | Exits _ _ _ _ | ExitsUndecodable _ _ _ | LaunchFails _ =>
         fst (create_usb req w) = Ret (Redirect "/sites")
     | NeverExits => fst (create_usb req w) = Blocked
     end.
Proof.
  intros Hs Hd Hw. split; [| split].
  - repeat split.
    + apply keeps_untimed_create_usb, Hw.
    + apply keeps_untimed_deploy, Hw.
    + apply keeps_untimed_system_info, Hw.
    + apply keeps_untimed_git_status, Hw.
    + apply keeps_untimed_dashboard, Hw.
  - rewrite (deploy_by_behaviour req w s Hs).
    destruct (w_tools w (deploy_argv s) (Some "/opt/brewnix")); reflexivity.
  - rewrite (create_usb_by_behaviour req w s dev Hs Hd).
    destruct (w_tools w (create_usb_argv s dev) (Some "/opt/brewnix")); reflexivity.
Qed.

End Waiting.

Lemma handlers_wait_without_timeout_witness :
  let w := Fixtures.world_with true [("lab1.yml", Fixtures.lab1_yaml)]
             Fixtures.tools_playbook_hangs in
  let req := Fixtures.post [("site_name", "lab1"); ("usb_device", "/dev/sdz")] in
  untimed (snd (App.dashboard (H := Fixtures.stub_codec) w))
  /\ fst (App.deploy req w) = Blocked
  /\ fst (App.create_usb req w) = Ret (Redirect "/sites").
Proof.
  intros w req.
  destruct (handlers_wait_without_timeout (H := Fixtures.stub_codec)
              req w "lab1" "/dev/sdz")
    as ((_ & _ & _ & _ & Hd) & Hdep & Husb);
    [reflexivity | reflexivity | constructor |].
  split; [exact Hd | split; [exact Hdep | exact Husb]].
Defined.

(** ** The configuration store *)

Section StoreLaws.

Lemma append_cons (c : ascii) (s t : string) :
  String c s +:+ t = String c (s +:+ t).
Proof. reflexivity. Qed.







Lemma lookup_store_same (name content : string) (fs : list (string * string)) :
  lookup_file name (store_file name content fs) = Some content.
Proof.
  induction fs as [| [n c] fs IH]; simpl.
  - rewrite String.eqb_refl. reflexivity.
  - destruct (String.eqb n name) eqn:E; simpl; rewrite E; [reflexivity | exact IH].
Qed.

Lemma lookup_store_other (name other content : string) (fs : list (string * string)) :
  other <> name ->
  lookup_file other (store_file name content fs) = lookup_file other fs.
Proof.
  intros Hne. induction fs as [| [n c] fs IH]; simpl.
  - apply String.eqb_neq in Hne. rewrite String.eqb_sym, Hne. reflexivity.
  - destruct (String.eqb n name) eqn:E; simpl.
    + apply String.eqb_eq in E. subst n.
      assert (String.eqb name other = false) as ->
        by (apply String.eqb_neq; congruence).
      reflexivity.
    + destruct (String.eqb n other); [reflexivity | exact IH].
Qed.

Lemma lookup_file_in (name : string) (fs : list (string * string)) :
  lookup_file name fs <> None <-> In name (map fst fs).
Proof.
  induction fs as [| [n c] fs IH]; simpl; [tauto |].
  destruct (String.eqb_spec n name) as [-> | Hne].
  - split; [auto | discriminate].
  - rewrite IH. split; [auto | intros [? | ?]; [contradiction | assumption]].
Qed.

(** The names of the store after a write: unchanged when the name was
    there, extended at the end otherwise. *)
Lemma store_file_names (name content : string) (fs : list (string * string)) :
  map fst (store_file name content fs)
  = match lookup_file name fs with
    | Some _ => map fst fs
    | None => map fst fs ++ [name]
    end.
Proof.
  induction fs as [| [n c] fs IH]; simpl; [reflexivity |].
  destruct (String.eqb_spec n name) as [-> | Hne]; simpl; [reflexivity |].
  rewrite IH. destruct (lookup_file name fs); reflexivity.
Qed.


Lemma store_store (name c1 c2 : string) (fs : list (string * string)) :
  store_file name c2 (store_file name c1 fs) = store_file name c2 fs.
Proof.
  induction fs as [| [n c] fs IH]; simpl.
  - rewrite String.eqb_refl. reflexivity.
  - destruct (String.eqb n name) eqn:E; simpl; rewrite E; [reflexivity |].
    rewrite IH. reflexivity.
Qed.

Lemma lookup_outside_same (path : list string) (content : string)
    (fs : list (list string * string)) :
  lookup_outside path (store_outside path content fs) = Some content.
Proof.
  induction fs as [| [p c] fs IH]; simpl.
  - rewrite bool_decide_eq_true_2 by reflexivity. reflexivity.
  - destruct (bool_decide (p = path)) eqn:E; simpl; rewrite E; [reflexivity | exact IH].
Qed.

Lemma store_outside_twice (path : list string) (c1 c2 : string)
    (fs : list (list string * string)) :
  store_outside path c2 (store_outside path c1 fs) = store_outside path c2 fs.
Proof.
  induction fs as [| [p c] fs IH]; simpl.
  - rewrite bool_decide_eq_true_2 by reflexivity. reflexivity.
  - destruct (bool_decide (p = path)) eqn:E; simpl; rewrite E; [reflexivity |].
    rewrite IH. reflexivity.
Qed.

(** Enumeration permutes the names. *)
Lemma elem_of_insert_by (rank : string -> nat) (x y : string) (l : list string) :
  y ∈ insert_by rank x l <-> y = x \/ y ∈ l.
Proof.
  induction l as [| z l IH]; simpl.
  - rewrite list_elem_of_singleton, elem_of_nil. tauto.
  - destruct (rank x <=? rank z)%nat.
    + rewrite !elem_of_cons. tauto.
    + rewrite !elem_of_cons, IH. tauto.
Qed.

Lemma elem_of_sort_by (rank : string -> nat) (y : string) (l : list string) :
  y ∈ sort_by rank l <-> y ∈ l.
Proof.
  induction l as [| x l IH]; simpl; [reflexivity |].
  rewrite elem_of_insert_by, elem_of_cons, IH. reflexivity.
Qed.

Lemma length_insert_by (rank : string -> nat) (x : string) (l : list string) :
  length (insert_by rank x l) = S (length l).
Proof.
  induction l as [| z l IH]; simpl; [reflexivity |].
  destruct (rank x <=? rank z)%nat; simpl; [reflexivity | rewrite IH; reflexivity].
Qed.

Lemma length_sort_by (rank : string -> nat) (l : list string) :
  length (sort_by rank l) = length l.
Proof.
  induction l as [| x l IH]; simpl; [reflexivity |].
  rewrite length_insert_by, IH. reflexivity.
Qed.

(** Where a name leads depends on the directories only, not on the files. *)
Lemma walk_ext (w w' : world) :
  (forall path, is_dir w path = is_dir w' path) ->
  forall parts cur, walk w cur parts = walk w' cur parts.
Proof.
  intros Hdir. induction parts as [| c rest IH]; intros cur; [reflexivity |].
  simpl. destruct rest as [| c' rest']; [reflexivity |].
  destruct (String.eqb c ".."); [apply IH |].
  rewrite Hdir. destruct (is_dir w' (cur ++ [c])); [apply IH | reflexivity].
Qed.

Lemma resolve_ext (w w' : world) (name : string) :
  w_dir_exists w = w_dir_exists w' ->
  w_dirs w = w_dirs w' ->
  resolve w name = resolve w' name.
Proof.
  intros Hd Hdirs.
  assert (forall path, is_dir w path = is_dir w' path) as Hdir
    by (intros path; unfold is_dir; rewrite Hd, Hdirs; reflexivity).
  unfold resolve. rewrite Hd, (walk_ext w w' Hdir).
  destruct (walk w' [] (path_parts name)) as [path |]; [| reflexivity].
  rewrite Hdir. reflexivity.
Qed.

Lemma resolve_set_files (fs : list (string * string)) (w : world) (name : string) :
  resolve (set_files fs w) name = resolve w name.
Proof. apply resolve_ext; reflexivity. Qed.

Lemma resolve_set_outside (fs : list (list string * string)) (w : world)
    (name : string) :
  resolve (set_outside fs w) name = resolve w name.
Proof. apply resolve_ext; reflexivity. Qed.


End StoreLaws.

Section Saving.
Import App.

(** The three steps of a save, by the file that the name leads to. *)
Lemma save_steps_by_target (name text : string) (w : world) :
  run_steps (save_steps name text) w =
    match resolve (set_dir_exists true w) name with
    | inl (InStore file) =>
        (Ret tt, set_files (store_file file text (w_files w)) (set_dir_exists true w))
    | inl (Outside path) =>
        (Ret tt, set_outside (store_outside path text (w_outside w))
                   (set_dir_exists true w))
    | inr e => (Raise e, set_dir_exists true w)
    end.
Proof.
  unfold save_steps, run_steps, bind, mkdir_config_dir, open_w.
  destruct (resolve (set_dir_exists true w) name) as [[file | path] | e] eqn:E;
    [| | reflexivity]; unfold write_close.
  - rewrite resolve_set_files, E.
    cbn [w_files set_files set_dir_exists]. rewrite lookup_store_same.
    unfold ret, set_files. cbn. rewrite store_store. reflexivity.
  - rewrite resolve_set_outside, E.
    cbn [w_outside set_outside set_dir_exists]. rewrite lookup_outside_same.
    unfold ret, set_outside. cbn. rewrite store_outside_twice. reflexivity.
Qed.



Context `{Codec}.



End Saving.


(** ** Creating a site *)

Section Creation.
Import App.
Context `{Codec}.

(** Reading the form either yields the record of its fields or raises,
    and it raises exactly on an ill-formed submission; the world is not
    touched. *)
Lemma site_config_of_form_cases (req : request) (w : world) :
  (exists name vt vlan ip raid host user,
      form_first "site_name" (form req) = Some name
      /\ form_first "vlan_id" (form req) = Some vt
      /\ int_of_string vt = Some vlan
      /\ form_first "ip_range" (form req) = Some ip
      /\ form_first "raid_level" (form req) = Some raid
      /\ form_first "api_host" (form req) = Some host
      /\ form_first "api_user" (form req) = Some user
      /\ site_config_of_form req w
         = (Ret (site_record name vlan ip
                   (form_getlist "system_disks" (form req))
                   (form_getlist "data_disks" (form req)) raid host user), w))
  \/ (ill_formed req /\ exists e, site_config_of_form req w = (Raise e, w)).
Proof.
  unfold site_config_of_form, ill_formed, required_fields, bind, form_get, lift,
    int, ret, raise.
  destruct (form_first "site_name" (form req)) as [name |] eqn:E1; simpl;
    [| right; split; [left; exists "site_name"; simpl; auto 10 | eexists; reflexivity]].
  destruct (form_first "vlan_id" (form req)) as [vt |] eqn:E2; simpl;
    [| right; split; [left; exists "vlan_id"; simpl; auto 10 | eexists; reflexivity]].
  destruct (int_of_string vt) as [vlan |] eqn:E3; simpl;
    [| right; split; [right; exists vt; auto | eexists; reflexivity]].
  destruct (form_first "ip_range" (form req)) as [ip |] eqn:E4; simpl;
    [| right; split; [left; exists "ip_range"; simpl; auto 10 | eexists; reflexivity]].
  destruct (form_first "raid_level" (form req)) as [raid |] eqn:E5; simpl;
    [| right; split; [left; exists "raid_level"; simpl; auto 10 | eexists; reflexivity]].
  destruct (form_first "api_host" (form req)) as [host |] eqn:E6; simpl;
    [| right; split; [left; exists "api_host"; simpl; auto 10 | eexists; reflexivity]].
  destruct (form_first "api_user" (form req)) as [user |] eqn:E7; simpl;
    [| right; split; [left; exists "api_user"; simpl; auto 10 | eexists; reflexivity]].
  left. exists name, vt, vlan, ip, raid, host, user.
  repeat split; first [assumption | reflexivity].
Qed.




Lemma store_outside_keeps_store (path : list string) (text : string) (w : world) :
  w_files (set_outside (store_outside path text (w_outside w)) w) = w_files w.
Proof. reflexivity. Qed.


(** A site name is joined to the directory as a path: with a double dot
    the record lands outside the store, with a leading dot and slash it
    lands on the file of another site name. *)
Lemma site_name_is_a_path :
  let H := Fixtures.stub_codec in
  let w := Fixtures.world_with true [("lab1.yml", "old")] Fixtures.tools_healthy in
  let named (n : string) := Fixtures.post (("site_name", n) :: Fixtures.lab1_form) in
  resolve w "../escape.yml" = inl (Outside ["opt"; "brewnix"; "config"; "escape.yml"])
  /\ fst (new_site (named "../escape") w) = Ret (Redirect "/sites")
  /\ w_files (snd (new_site (named "../escape") w)) = w_files w
  /\ map fst (w_outside (snd (new_site (named "../escape") w)))
     = [["opt"; "brewnix"; "config"; "escape.yml"]]
  /\ resolve w "./lab1.yml" = inl (InStore "lab1.yml")
  /\ map fst (w_files (snd (new_site (named "./lab1") w))) = ["lab1.yml"]
  /\ lookup_file "lab1.yml" (w_files (snd (new_site (named "./lab1") w))) <> Some "old"
  /\ resolve w "/tmp/x.yml" = inl (Outside ["tmp"; "x.yml"])
  /\ resolve w "a/b.yml" = inr (OSError "No such file or directory: a/b.yml").
Proof. repeat split; try (vm_compute; reflexivity). vm_compute. discriminate. Qed.


End Creation.


(** ** Listing the store *)

Section Listing.
Import App.
Context `{Codec}.

Lemma load_entry_mapping (name text : string) (d : gmap key value) (w : world) :
  lookup_file name (w_files w) = Some text ->
  yaml_safe_load text = inl (VDict d) ->
  load_entry name w = (Ret (tagged name d), w).
Proof.
  intros Hf Hy. unfold load_entry, bind, read_file. rewrite Hf, Hy. reflexivity.
Qed.

Lemma load_entry_malformed (name text : string) (e : exn) (w : world) :
  lookup_file name (w_files w) = Some text ->
  yaml_safe_load text = inr e ->
  load_entry name w = (Raise e, w).
Proof.
  intros Hf Hy. unfold load_entry, bind, read_file. rewrite Hf, Hy. reflexivity.
Qed.

(** A document that is no mapping takes no item assignment. *)
Lemma load_entry_not_mapping (name text : string) (v : value) (w : world) :
  lookup_file name (w_files w) = Some text ->
  yaml_safe_load text = inl v ->
  (forall d, v <> VDict d) ->
  load_entry name w = (Raise (TypeError (no_item_assignment v)), w).
Proof.
  intros Hf Hy Hv. unfold load_entry, bind, read_file. rewrite Hf, Hy.
  destruct v; try reflexivity. exfalso. eapply Hv. reflexivity.
Qed.

(** Loading one entry returns or raises, and leaves the world alone. *)
Lemma load_entry_cases (name : string) (w : world) :
  (exists v, load_entry name w = (Ret v, w))
  \/ (exists e, load_entry name w = (Raise e, w)).
Proof.
  unfold load_entry, bind, read_file.
  destruct (lookup_file name (w_files w)) as [text |]; [| right; eexists; reflexivity].
  destruct (yaml_safe_load text) as [v | e]; simpl; [| right; eexists; reflexivity].
  destruct v; simpl; solve [left; eexists; reflexivity | right; eexists; reflexivity].
Qed.

Lemma sites_loop_all (names : list string) (w : world) :
  forall (records acc : list value),
    Forall2 (fun n r => load_entry n w = (Ret r, w)) names records ->
    sites_loop names acc w = (Ret (acc ++ records), w).
Proof.
  induction names as [| n names IH]; intros records acc HF.
  - apply Forall2_nil_inv_l in HF. subst records. simpl.
    rewrite app_nil_r. reflexivity.
  - apply Forall2_cons_inv_l in HF as (r & rest & Hr & Hrest & ->).
    simpl. rewrite (bind_of_ret _ _ w w r Hr), (IH rest (acc ++ [r]) Hrest).
    rewrite <- app_assoc. reflexivity.
Qed.

Lemma sites_loop_fails (names : list string) (w : world) (bad : string) (e : exn) :
  bad ∈ names ->
  load_entry bad w = (Raise e, w) ->
  forall acc, exists e', sites_loop names acc w = (Raise e', w).
Proof.
  intros Hin Hbad. induction names as [| n names IH]; intros acc.
  - apply elem_of_nil in Hin. contradiction.
  - simpl. destruct (load_entry_cases n w) as [(v & Hv) | (e0 & He0)].
    + rewrite (bind_of_ret _ _ w w v Hv).
      apply elem_of_cons in Hin as [-> | Hin]; [congruence |].
      apply (IH Hin).
    + exists e0. apply (bind_of_raise _ _ w w e0 He0).
Qed.

(** The loop stops at the first entry that fails, with its exception. *)
Lemma sites_loop_first_failure (before after : list string) (bad : string)
    (e : exn) (w : world) :
  Forall (holds_mapping w) before ->
  load_entry bad w = (Raise e, w) ->
  forall acc, sites_loop (before ++ bad :: after) acc w = (Raise e, w).
Proof.
  intros HF Hbad.
  induction HF as [| n before (text & d & Hf & Hy) _ IH]; intros acc; simpl.
  - apply (bind_of_raise _ _ w w e Hbad).
  - rewrite (bind_of_ret _ _ w w _ (load_entry_mapping n text d w Hf Hy)). apply IH.
Qed.

Lemma sites_unfold (w : world) :
  w_dir_exists w = true ->
  sites w =
    match sites_loop (listed w) [] w with
    | (Ret records, w') => (Ret (Render "sites.html" [("sites", VList records)]), w')
    | (Raise e, w') => (Raise e, w')
    | (Blocked, w') => (Blocked, w')
    end.
Proof.
  intros Hd. unfold sites, bind, config_dir_exists, glob_yml, listed.
  rewrite Hd. simpl.
  destruct (sites_loop _ [] w) as [[records | e |] w']; reflexivity.
Qed.

(** Every listed name is the name of a file of the store. *)
Lemma listed_files_exist (w : world) (n : string) :
  n ∈ listed w -> exists text, lookup_file n (w_files w) = Some text.
Proof.
  unfold listed. rewrite elem_of_sort_by, list_elem_of_filter.
  intros (_ & Hin). apply list_elem_of_In, lookup_file_in in Hin.
  destruct (lookup_file n (w_files w)) as [text |]; [eauto | contradiction].
Qed.

(** Either every file of a sequence holds a mapping or the sequence has
    a first file that does not. *)
Lemma first_failure (w : world) (names : list string) :
  (forall n, n ∈ names -> exists text, lookup_file n (w_files w) = Some text) ->
  Forall (holds_mapping w) names
  \/ exists before bad after text,
       names = before ++ bad :: after
       /\ Forall (holds_mapping w) before
       /\ lookup_file bad (w_files w) = Some text
       /\ ((exists e, yaml_safe_load text = inr e)
           \/ (exists v, yaml_safe_load text = inl v /\ forall d, v <> VDict d)).
Proof.
  induction names as [| n names IH]; intros Hex; [left; constructor |].
  destruct (Hex n) as (text & Hf); [left |].
  assert (holds_mapping w n
          \/ ((exists e, yaml_safe_load text = inr e)
              \/ (exists v, yaml_safe_load text = inl v /\ forall d, v <> VDict d)))
    as [Hok | Hbad].
  { destruct (yaml_safe_load text) as [v | e] eqn:Hy; [| right; left; eauto].
    destruct v; try (right; right; eexists; split; [reflexivity | discriminate]).
    left. exists text. eauto. }
  - destruct IH as [Hall | (before & bad & after & text' & -> & Hbefore & Hf' & Hbad)].
    + intros m Hm. apply Hex. right. exact Hm.
    + left. constructor; assumption.
    + right. exists (n :: before), bad, after, text'.
      split; [reflexivity |]. split; [constructor; assumption |]. split; assumption.
  - right. exists [], n, names, text. split; [reflexivity |].
    split; [constructor |]. split; assumption.
Qed.

(** C8, as stated, fails: with one well-formed and one malformed file
    in the store the listing raises the parser's exception; it returns
    no page and none of the records, the well-formed one included.  A
    file that is empty does the same with a type error. *)
Lemma sites_fails_on_one_malformed_file :
  let w := Fixtures.world_with true
             [("lab1.yml", Fixtures.lab1_yaml); ("broken.yml", "{")]
             Fixtures.tools_healthy in
  let w' := Fixtures.world_with true
              [("lab1.yml", Fixtures.lab1_yaml); ("empty.yml", "")]
              Fixtures.tools_healthy in
  (exists loaded,
     fst (load_entry (H := Fixtures.stub_codec) "lab1.yml" w) = Ret loaded
     /\ get_item loaded "site_name" = Some (VStr "lab1")
     /\ get_item loaded "filename" = Some (VStr "lab1.yml"))
  /\ sites (H := Fixtures.stub_codec) w
     = (Raise (YAMLError "could not parse the document"), w)
  /\ sites (H := Fixtures.stub_codec) w'
     = (Raise (TypeError "'NoneType' object does not support item assignment"), w').
Proof.
  split; [eexists; split; [vm_compute; reflexivity | split; reflexivity] |].
  split; vm_compute; reflexivity.
Qed.

(** C8, amended. The listing is all or nothing.  When every listed file
    decodes to a mapping, the page holds one record per file, in the
    order of enumeration, each tagged with its file name.  Otherwise
    there is a first listed file, in the order of enumeration, that does
    not decode to a mapping, and the listing as a whole raises the
    exception of that file: the parser's exception when the file is
    malformed, the type error of the item assignment when the file
    decodes to a document that is no mapping (an empty file decodes to
    [None]).  In that case no page and no record is returned, the world
    is as it was, and nothing is skipped or reported per file. *)
Theorem sites_all_or_nothing (w : world) :
  w_dir_exists w = true ->
  ((forall n, n ∈ listed w ->
      exists text d, lookup_file n (w_files w) = Some text
                     /\ yaml_safe_load text = inl (VDict d)) ->
   exists records,
     sites w = (Ret (Render "sites.html" [("sites", VList records)]), w)
     /\ Forall2 (fun n r =>
          exists text d, lookup_file n (w_files w) = Some text
                         /\ yaml_safe_load text = inl (VDict d)
                         /\ r = tagged n d) (listed w) records)
  /\ (forall bad text e,
        bad ∈ listed w ->
        lookup_file bad (w_files w) = Some text ->
        yaml_safe_load text = inr e ->
        exists e', sites w = (Raise e', w))
  /\ (forall bad text v,
        bad ∈ listed w ->
        lookup_file bad (w_files w) = Some text ->
        yaml_safe_load text = inl v ->
        (forall d, v <> VDict d) ->
        exists e', sites w = (Raise e', w))
  /\ (forall before bad after text e,
        listed w = before ++ bad :: after ->
        Forall (holds_mapping w) before ->
        lookup_file bad (w_files w) = Some text ->
        yaml_safe_load text = inr e ->
        sites w = (Raise e, w))
  /\ (forall before bad after text v,
        listed w = before ++ bad :: after ->
        Forall (holds_mapping w) before ->
        lookup_file bad (w_files w) = Some text ->
        yaml_safe_load text = inl v ->
        (forall d, v <> VDict d) ->
        sites w = (Raise (TypeError (no_item_assignment v)), w))
  /\ (Forall (holds_mapping w) (listed w)
      \/ exists before bad after text,
           listed w = before ++ bad :: after
           /\ Forall (holds_mapping w) before
           /\ lookup_file bad (w_files w) = Some text
           /\ ((exists e, yaml_safe_load text = inr e)
               \/ (exists v, yaml_safe_load text = inl v
                             /\ forall d, v <> VDict d)))
  /\ (forall r w', sites w = (Ret r, w') -> Forall (holds_mapping w) (listed w)).
Proof.
  intros Hd.
  assert (forall before bad after e,
            listed w = before ++ bad :: after ->
            Forall (holds_mapping w) before ->
            load_entry bad w = (Raise e, w) ->
            sites w = (Raise e, w)) as Hfirst.
  { intros before bad after e Hl HF Hbad. rewrite (sites_unfold w Hd), Hl.
    rewrite (sites_loop_first_failure before after bad e w HF Hbad []). reflexivity. }
  split; [| split; [| split; [| split; [| split; [| split]]]]].
  - intros Hall. clear Hfirst. rewrite (sites_unfold w Hd).
    assert (exists records,
              Forall2 (fun n r =>
                exists text d, lookup_file n (w_files w) = Some text
                               /\ yaml_safe_load text = inl (VDict d)
                               /\ r = tagged n d) (listed w) records) as (records & HF).
    { induction (listed w) as [| n names IH].
      - exists []. constructor.
      - destruct (Hall n) as (text & d & Hf & Hy); [left |].
        destruct IH as (rest & Hrest); [intros m Hm; apply Hall; right; exact Hm |].
        exists (tagged n d :: rest). constructor; [| exact Hrest].
        exists text, d. auto. }
    exists records. split; [| exact HF].
    rewrite (sites_loop_all (listed w) w records []); [reflexivity |].
    eapply Forall2_impl; [exact HF |].
    intros n r (text & d & Hf & Hy & ->). apply (load_entry_mapping n text d w Hf Hy).
  - intros bad text e Hin Hf Hy. rewrite (sites_unfold w Hd).
    destruct (sites_loop_fails (listed w) w bad e Hin
                (load_entry_malformed bad text e w Hf Hy) []) as (e' & He').
    exists e'. rewrite He'. reflexivity.
  - intros bad text v Hin Hf Hy Hv. rewrite (sites_unfold w Hd).
    destruct (sites_loop_fails (listed w) w bad _ Hin
                (load_entry_not_mapping bad text v w Hf Hy Hv) []) as (e' & He').
    exists e'. rewrite He'. reflexivity.
  - intros before bad after text e Hl HF Hf Hy.
    apply (Hfirst before bad after e Hl HF (load_entry_malformed bad text e w Hf Hy)).
  - intros before bad after text v Hl HF Hf Hy Hv.
    apply (Hfirst before bad after _ Hl HF (load_entry_not_mapping bad text v w Hf Hy Hv)).
  - apply first_failure. intros n. apply listed_files_exist.
  - intros r w' Hrun.
    destruct (first_failure w (listed w) (listed_files_exist w))
      as [Hall | (before & bad & after & text & Hl & HF & Hf & [(e & Hy) | (v & Hy & Hv)])];
      [exact Hall | exfalso ..].
    + rewrite (Hfirst before bad after e Hl HF
                 (load_entry_malformed bad text e w Hf Hy)) in Hrun. discriminate.
    + rewrite (Hfirst before bad after _ Hl HF
                 (load_entry_not_mapping bad text v w Hf Hy Hv)) in Hrun. discriminate.
Qed.

End Listing.

Lemma sites_all_or_nothing_witness :
  let H := Fixtures.stub_codec in
  let good := Fixtures.world_with true [("lab1.yml", Fixtures.lab1_yaml)]
                Fixtures.tools_healthy in
  let w := Fixtures.world_with true
             [("lab1.yml", Fixtures.lab1_yaml); ("broken.yml", "{")]
             Fixtures.tools_healthy in
  let w' := Fixtures.world_with true
              [("lab1.yml", Fixtures.lab1_yaml); ("empty.yml", "")]
              Fixtures.tools_healthy in
  (exists records,
     App.sites good = (Ret (Render "sites.html" [("sites", VList records)]), good))
  /\ App.sites w = (Raise (YAMLError "could not parse the document"), w)
  /\ App.sites w'
     = (Raise (TypeError "'NoneType' object does not support item assignment"), w').
Proof.
  intros H good w w'.
  assert (holds_mapping good "lab1.yml") as Hlab.
  { eexists. eexists. split; reflexivity. }
  split; [| split].
  - destruct (sites_all_or_nothing good) as (Hall & _); [reflexivity |].
    destruct Hall as (records & Hrun & _).
    + intros n Hn. apply list_elem_of_singleton in Hn. subst n. exact Hlab.
    + exists records. exact Hrun.
  - destruct (sites_all_or_nothing w) as (_ & _ & _ & Hbad & _); [reflexivity |].
    apply (Hbad ["lab1.yml"] "broken.yml" [] "{").
    + reflexivity.
    + constructor; [exact Hlab | constructor].
    + reflexivity.
    + reflexivity.
  - destruct (sites_all_or_nothing w') as (_ & _ & _ & _ & Hbad & _); [reflexivity |].
    apply (Hbad ["lab1.yml"] "empty.yml" [] "" VNone).
    + reflexivity.
    + constructor; [exact Hlab | constructor].
    + reflexivity.
    + reflexivity.
    + discriminate.
Defined.

(** ** Saving and reading back *)

Section RoundTrip.
Import App.
Context `{Codec}.



End RoundTrip.


(** ** Status aggregation *)

Section Status.
Import App.
Context `{Codec}.

(** [get_system_info], by the behaviour of its three sources. *)
Lemma get_system_info_by_behaviour (w : world) :
  get_system_info w =
    let w1 := add_call (status_call zpool_argv None) w in
    let w2 := add_call (status_call df_argv None) w1 in
    let w3 := add_call (status_call free_argv None) w2 in
    match w_tools w zpool_argv None with
    | LaunchFails e => (Ret (error_marker e), w1)
    | NeverExits => (Blocked, w1)
    | ExitsUndecodable _ _ reason =>
        (Ret (error_marker (UnicodeDecodeError reason)), w1)
    | Exits _ rc out _ =>
        match pools_of rc out with
        | inr e => (Ret (error_marker e), w1)
        | inl pools =>
            match w_tools w df_argv None with
            | LaunchFails e => (Ret (error_marker e), w2)
            | NeverExits => (Blocked, w2)
            | ExitsUndecodable _ _ reason =>
                (Ret (error_marker (UnicodeDecodeError reason)), w2)
            | Exits _ _ disk _ =>
                match w_tools w free_argv None with
                | LaunchFails e => (Ret (error_marker e), w3)
                | NeverExits => (Blocked, w3)
                | ExitsUndecodable _ _ reason =>
                    (Ret (error_marker (UnicodeDecodeError reason)), w3)
                | Exits _ _ mem _ =>
                    (Ret (system_snapshot (w_hostname w) pools (strip disk)
                            (strip mem) (w_now w)), w3)
                end
            end
        end
    end.
Proof.
  unfold get_system_info, try_except, bind, subprocess_run, started, pools_of, lift,
    zpool_argv, df_argv, free_argv, status_call.
  destruct (w_tools w ["zpool"; "status"; "-j"] None) as [d rc out err | d rc reason | | e];
    simpl; try reflexivity.
  destruct (rc =? 0); simpl.
  - destruct (json_loads out) as [pools | e]; simpl; [| reflexivity].
    destruct (w_tools w ["df"; "-h"; "/"] None); simpl; try reflexivity.
    destruct (w_tools w ["free"; "-h"] None); reflexivity.
  - destruct (w_tools w ["df"; "-h"; "/"] None); simpl; try reflexivity.
    destruct (w_tools w ["free"; "-h"] None); reflexivity.
Qed.

(** [get_git_status], by the behaviour of its two queries. *)
Lemma get_git_status_by_behaviour (w : world) :
  get_git_status w =
    let w1 := add_call (status_call git_status_argv (Some REPO_DIR)) w in
    let w2 := add_call (status_call git_log_argv (Some REPO_DIR)) w1 in
    match w_tools w git_status_argv (Some REPO_DIR) with
    | LaunchFails e => (Ret (error_marker e), w1)
    | NeverExits => (Blocked, w1)
    | ExitsUndecodable _ _ reason =>
        (Ret (error_marker (UnicodeDecodeError reason)), w1)
    | Exits _ _ status _ =>
        match w_tools w git_log_argv (Some REPO_DIR) with
        | LaunchFails e => (Ret (error_marker e), w2)
        | NeverExits => (Blocked, w2)
        | ExitsUndecodable _ _ reason =>
            (Ret (error_marker (UnicodeDecodeError reason)), w2)
        | Exits _ _ log _ => (Ret (git_snapshot status log), w2)
        end
    end.
Proof.
  unfold get_git_status, try_except, bind, subprocess_run, started,
    git_status_argv, git_log_argv, status_call.
  destruct (w_tools w ["git"; "status"; "--porcelain"] (Some REPO_DIR));
    simpl; try reflexivity.
  destruct (w_tools w ["git"; "log"; "--oneline"; "-5"] (Some REPO_DIR)); reflexivity.
Qed.






End Status.


(** * Further properties of the handlers *)

(** ** Framing: what a handler leaves alone *)

Section Frame.
Variable R : world -> world -> Prop.
Hypothesis R_refl : forall w, R w w.
Hypothesis R_trans : forall w1 w2 w3, R w1 w2 -> R w2 w3 -> R w1 w3.

Lemma keeps_ret {A} (a : A) : keeps R (ret a).
Proof. intros w. apply R_refl. Qed.

Lemma keeps_raise {A} (e : exn) : keeps R (@raise A e).
Proof. intros w. apply R_refl. Qed.

Lemma keeps_pure {A} (f : world -> outcome A) : keeps R (fun w => (f w, w)).
Proof. intros w. apply R_refl. Qed.

Lemma keeps_bind {A B} (m : M A) (k : A -> M B) :
  keeps R m -> (forall a, keeps R (k a)) -> keeps R (bind m k).
Proof.
  intros Hm Hk w. unfold bind. specialize (Hm w).
  destruct (m w) as [[a | e |] w1]; simpl in *; [| assumption | assumption].
  apply (R_trans _ _ _ Hm), Hk.
Qed.

Lemma keeps_try {A} (m : M A) (h : exn -> M A) :
  keeps R m -> (forall e, keeps R (h e)) -> keeps R (try_except m h).
Proof.
  intros Hm Hh w. unfold try_except. specialize (Hm w).
  destruct (m w) as [[a | e |] w1]; simpl in *; [assumption | | assumption].
  apply (R_trans _ _ _ Hm), Hh.
Qed.

Lemma keeps_if {A} (b : bool) (m1 m2 : M A) :
  keeps R m1 -> keeps R m2 -> keeps R (if b then m1 else m2).
Proof. destruct b; auto. Qed.

Lemma keeps_lift {A} (r : A + exn) : keeps R (lift r).
Proof. destruct r; [apply keeps_ret | apply keeps_raise]. Qed.

Lemma keeps_form_get (req : request) (k : string) : keeps R (form_get req k).
Proof.
  unfold form_get. destruct (form_first k (form req));
    [apply keeps_ret | apply keeps_raise].
Qed.

Lemma keeps_read_file (name : string) : keeps R (read_file name).
Proof.
  intros w. unfold read_file. destruct (lookup_file name (w_files w)); apply R_refl.
Qed.

Lemma keeps_glob : keeps R glob_yml.
Proof. intros w. apply R_refl. Qed.

Lemma keeps_config_dir_exists : keeps R config_dir_exists.
Proof. intros w. apply R_refl. Qed.

Lemma keeps_setitem (config : value) (key : string) (item : value) :
  keeps R (App.setitem config key item).
Proof. destruct config; first [apply keeps_ret | apply keeps_raise]. Qed.

Context `{Codec}.

Lemma keeps_site_config_of_form (req : request) :
  keeps R (App.site_config_of_form req).
Proof.
  unfold App.site_config_of_form.
  repeat first [ apply keeps_bind; [first [apply keeps_form_get | apply keeps_lift] | intros ?]
               | apply keeps_ret ].
Qed.

Lemma keeps_load_entry (name : string) : keeps R (App.load_entry name).
Proof.
  unfold App.load_entry.
  apply keeps_bind; [apply keeps_read_file | intros text].
  apply keeps_bind; [apply keeps_lift | intros config].
  apply keeps_setitem.
Qed.

Lemma keeps_sites_loop (names : list string) :
  forall acc, keeps R (App.sites_loop names acc).
Proof.
  induction names as [| n names IH]; intros acc; simpl.
  - apply keeps_ret.
  - apply keeps_bind; [apply keeps_load_entry | intros config; apply IH].
Qed.

Lemma keeps_sites : keeps R App.sites.
Proof.
  unfold App.sites.
  apply keeps_bind; [apply keeps_config_dir_exists | intros present].
  apply keeps_bind; [| intros l; apply keeps_ret].
  apply keeps_if; [| apply keeps_ret].
  apply keeps_bind; [apply keeps_glob | intros names; apply keeps_sites_loop].
Qed.

Lemma keeps_get_proxmox_status : keeps R App.get_proxmox_status.
Proof.
  unfold App.get_proxmox_status.
  apply keeps_try; [apply keeps_ret | intros e; apply keeps_ret].
Qed.

(** The handlers that run tools keep [R] as soon as starting a tool and
    flashing a message do. *)
Hypothesis R_run : forall argv cwd,
  plain_call (Call argv cwd false None) = true ->
  keeps R (subprocess_run argv cwd false None).
Hypothesis R_flash : forall m c, keeps R (flash m c).

Lemma keeps_create_usb (req : request) : keeps R (App.create_usb req).
Proof.
  unfold App.create_usb.
  apply keeps_bind; [apply keeps_form_get | intros site_name].
  apply keeps_bind; [apply keeps_form_get | intros usb_device].
  apply keeps_bind; [| intros u; apply keeps_ret].
  apply keeps_try; [| intros e; apply R_flash].
  apply keeps_bind; [apply R_run; reflexivity | intros result].
  apply keeps_if; apply R_flash.
Qed.

Lemma keeps_deploy (req : request) : keeps R (App.deploy req).
Proof.
  unfold App.deploy.
  apply keeps_bind; [| intros u; apply keeps_ret].
  apply keeps_try; [| intros e; apply R_flash].
  apply keeps_bind; [apply keeps_form_get | intros site_name].
  apply keeps_bind; [apply R_run; reflexivity | intros result].
  apply keeps_if; apply R_flash.
Qed.

Lemma keeps_get_system_info : keeps R App.get_system_info.
Proof.
  unfold App.get_system_info.
  apply keeps_try; [| intros e; apply keeps_ret].
  apply keeps_bind; [apply R_run; reflexivity | intros zfs_result].
  apply keeps_bind;
    [apply keeps_if; [apply keeps_lift | apply keeps_ret] | intros zfs_status].
  apply keeps_bind; [apply R_run; reflexivity | intros df_result].
  apply keeps_bind; [apply R_run; reflexivity | intros mem_result].
  apply (keeps_pure (fun w => Ret _)).
Qed.

Lemma keeps_get_git_status : keeps R App.get_git_status.
Proof.
  unfold App.get_git_status.
  apply keeps_try; [| intros e; apply keeps_ret].
  apply keeps_bind; [apply R_run; reflexivity | intros status_result].
  apply keeps_bind; [apply R_run; reflexivity | intros log_result].
  apply keeps_ret.
Qed.

Lemma keeps_dashboard : keeps R App.dashboard.
Proof.
  unfold App.dashboard.
  apply keeps_try; [| intros e; apply keeps_ret].
  apply keeps_bind; [apply keeps_get_system_info | intros system_info].
  apply keeps_bind; [apply keeps_get_proxmox_status | intros vm_status].
  apply keeps_bind; [apply keeps_get_git_status | intros git_status].
  apply keeps_ret.
Qed.

Lemma keeps_api_status : keeps R App.api_status.
Proof.
  unfold App.api_status.
  apply keeps_bind; [apply keeps_get_system_info | intros info; apply keeps_ret].
Qed.

Lemma keeps_api_vms : keeps R App.api_vms.
Proof.
  unfold App.api_vms.
  apply keeps_bind; [apply keeps_get_proxmox_status | intros vms; apply keeps_ret].
Qed.

End Frame.

Section Separation.
Import App.
Context `{Codec}.

Lemma same_store_refl (w : world) : same_store w w.
Proof. split; reflexivity. Qed.

Lemma same_store_trans (w1 w2 w3 : world) :
  same_store w1 w2 -> same_store w2 w3 -> same_store w1 w3.
Proof. intros [A1 A2] [B1 B2]. split; congruence. Qed.

Lemma same_store_run (argv : list string) (cwd : option string) :
  plain_call (Call argv cwd false None) = true ->
  keeps same_store (subprocess_run argv cwd false None).
Proof. intros _ w. rewrite run_logs. split; reflexivity. Qed.

Lemma same_store_flash (m c : string) : keeps same_store (flash m c).
Proof. intros w. split; reflexivity. Qed.

(** X1. The handlers that run external tools or report status never
    write to the configuration store themselves: after [create_usb],
    [deploy], [dashboard], [api_status] and [api_vms] the directory and
    every file in it are as before, whatever the request and whatever the
    tools do. *)
Theorem tool_handlers_leave_store (req : request) (w : world) :
  same_store w (snd (create_usb req w))
  /\ same_store w (snd (deploy req w))
  /\ same_store w (snd (dashboard w))
  /\ same_store w (snd (api_status w))
  /\ same_store w (snd (api_vms w)).
Proof.
  repeat split.
  all: first
    [ apply (keeps_create_usb same_store same_store_refl same_store_trans
               same_store_run same_store_flash)
    | apply (keeps_deploy same_store same_store_refl same_store_trans
               same_store_run same_store_flash)
    | apply (keeps_dashboard same_store same_store_refl same_store_trans
               same_store_run)
    | apply (keeps_api_status same_store same_store_refl same_store_trans
               same_store_run)
    | apply (keeps_api_vms same_store same_store_refl same_store_trans) ].
Qed.

(** X2. Listing is read-only: whether it returns the page or raises on
    a malformed file, [sites] leaves the whole world (store, call log,
    flashed messages) exactly as it found it. *)
Theorem sites_is_read_only (w : world) : snd (sites w) = w.
Proof.
  apply (keeps_sites (fun w0 w1 => w1 = w0)).
  - reflexivity.
  - intros w1 w2 w3 E1 E2. congruence.
Qed.

Lemma same_calls_steps (file text : string) :
  keeps same_calls (run_steps (save_steps file text)).
Proof.
  intros w. unfold same_calls. rewrite save_steps_by_target.
  destruct (resolve (set_dir_exists true w) file) as [[f | path] | e]; reflexivity.
Qed.

(** X3. Creating a site starts no external process: whatever the
    submission, accepted or rejected, the call log after [new_site] is
    the call log before it. *)
Theorem new_site_starts_no_process (req : request) (w : world) :
  w_calls (snd (new_site req w)) = w_calls w.
Proof.
  assert (forall w1 w2 w3, same_calls w1 w2 -> same_calls w2 w3 -> same_calls w1 w3)
    as Htrans by (unfold same_calls; congruence).
  assert (forall w0, same_calls w0 w0) as Hrefl by reflexivity.
  revert w. change (keeps same_calls (new_site req)).
  unfold new_site. apply keeps_if; [| apply (keeps_ret _ Hrefl)].
  apply (keeps_bind _ Htrans);
    [apply (keeps_site_config_of_form _ Hrefl Htrans) | intros cfg].
  apply (keeps_bind _ Htrans); [apply (keeps_form_get _ Hrefl) | intros name].
  apply (keeps_bind _ Htrans); [apply same_calls_steps | intros u].
  apply (keeps_bind _ Htrans); [intros w; reflexivity | intros u'].
  apply (keeps_ret _ Hrefl).
Qed.

Lemma extends_calls_refl (w : world) : extends_calls w w.
Proof. exists []. split; [symmetry; apply app_nil_r | constructor]. Qed.

Lemma extends_calls_trans (w1 w2 w3 : world) :
  extends_calls w1 w2 -> extends_calls w2 w3 -> extends_calls w1 w3.
Proof.
  intros (a & Ea & Fa) (b & Eb & Fb). exists (a ++ b). split.
  - rewrite Eb, Ea, app_assoc. reflexivity.
  - apply Forall_app. split; assumption.
Qed.

Lemma extends_calls_run (argv : list string) (cwd : option string) :
  plain_call (Call argv cwd false None) = true ->
  keeps extends_calls (subprocess_run argv cwd false None).
Proof.
  intros Hp w. rewrite run_logs. exists [Call argv cwd false None].
  split; [reflexivity | constructor; [exact Hp | constructor]].
Qed.

Lemma extends_calls_flash (m c : string) : keeps extends_calls (flash m c).
Proof.
  intros w. exists []. split; [simpl; symmetry; apply app_nil_r | constructor].
Qed.

(** X4. The call log only grows, and only by plain calls: every process
    that [create_usb], [deploy], [dashboard] or [api_status] starts is
    started without a shell and without a timeout, and its program is one
    of six constants (the media tool, ansible-playbook, zpool, df, free,
    git); no part of a request ever chooses the program. *)
Theorem handlers_start_known_programs_only (req : request) (w : world) :
  extends_calls w (snd (create_usb req w))
  /\ extends_calls w (snd (deploy req w))
  /\ extends_calls w (snd (dashboard w))
  /\ extends_calls w (snd (api_status w)).
Proof.
  repeat split.
  all: first
    [ apply (keeps_create_usb extends_calls extends_calls_refl extends_calls_trans
               extends_calls_run extends_calls_flash)
    | apply (keeps_deploy extends_calls extends_calls_refl extends_calls_trans
               extends_calls_run extends_calls_flash)
    | apply (keeps_dashboard extends_calls extends_calls_refl extends_calls_trans
               extends_calls_run)
    | apply (keeps_api_status extends_calls extends_calls_refl extends_calls_trans
               extends_calls_run) ].
Qed.

End Separation.

(** ** The two tool handlers, on every request *)

Section ToolHandlers.
Import App.

Lemma deploy_without_site_name (req : request) (w : world) :
  form_first "site_name" (form req) = None ->
  deploy req w
  = (Ret (Redirect "/"),
     add_flash ("Error: " +:+ str_exn (BadRequestKeyError "site_name"), "error") w).
Proof.
  intros Hs. unfold deploy, bind at 1, try_except.
  rewrite (bind_of_raise _ _ w w _ (form_get_absent _ _ _ Hs)). reflexivity.
Qed.

(** X5. [deploy] never raises: on every request it either redirects to
    the dashboard having flashed exactly one message, or blocks on the
    tool having flashed none.  A request without the field [site_name] is
    answered with one message of category [error] and starts no process. *)
Theorem deploy_always_answers (req : request) (w : world) :
  ((fst (deploy req w) = Ret (Redirect "/")
    /\ exists m, w_flashes (snd (deploy req w)) = w_flashes w ++ [m])
   \/ (fst (deploy req w) = Blocked
       /\ w_flashes (snd (deploy req w)) = w_flashes w))
  /\ (form_first "site_name" (form req) = None ->
      fst (deploy req w) = Ret (Redirect "/")
      /\ w_calls (snd (deploy req w)) = w_calls w
      /\ exists text, w_flashes (snd (deploy req w)) = w_flashes w ++ [(text, "error")]).
Proof.
  split.
  - destruct (form_first "site_name" (form req)) as [s |] eqn:Hs.
    + rewrite (deploy_by_behaviour req w s Hs).
      destruct (w_tools w (deploy_argv s) (Some "/opt/brewnix"))
        as [d rc out err | d rc reason | | e].
      * left. split; [reflexivity | eexists; reflexivity].
      * left. split; [reflexivity | eexists; reflexivity].
      * right. split; reflexivity.
      * left. split; [reflexivity | eexists; reflexivity].
    + rewrite (deploy_without_site_name req w Hs).
      left. split; [reflexivity | eexists; reflexivity].
  - intros Hs. rewrite (deploy_without_site_name req w Hs).
    split; [reflexivity | split; [reflexivity | eexists; reflexivity]].
Qed.

Lemma deploy_always_answers_witness :
  let w := Fixtures.fresh_world in
  fst (deploy (Fixtures.post []) w) = Ret (Redirect "/")
  /\ w_calls (snd (deploy (Fixtures.post []) w)) = w_calls w.
Proof.
  intros w.
  destruct (deploy_always_answers (Fixtures.post []) w) as (_ & Hmiss).
  destruct Hmiss as (Hr & Hc & _); [reflexivity |].
  split; [exact Hr | exact Hc].
Defined.

(** X6. With both fields present, [create_usb] starts the media tool
    exactly once and always redirects to the site list when the tool
    lets it.  When the captured output decodes as text, exit code 0
    flashes the success message in the default category and any other
    exit code flashes the captured standard error in the category
    [error]; captured output that does not decode as text flashes the
    text of the decoding error in the category [error], whatever the exit
    code; a tool that cannot be started flashes the text of the exception
    in the category [error]; a tool that never exits blocks the handler
    and nothing is flashed. *)
Theorem create_usb_outcomes (req : request) (w : world) (s dev : string) :
  form_first "site_name" (form req) = Some s ->
  form_first "usb_device" (form req) = Some dev ->
  w_calls (snd (create_usb req w)) = w_calls w ++ [create_usb_call s dev]
  /\ match w_tools w (create_usb_argv s dev) (Some "/opt/brewnix") with
     | Exits _ rc _ err =>
         fst (create_usb req w) = Ret (Redirect "/sites")
         /\ (rc = 0 ->
             w_flashes (snd (create_usb req w))
             = w_flashes w ++ [("USB bootstrap drive created successfully!", "message")])
         /\ (rc <> 0 ->
             w_flashes (snd (create_usb req w))
             = w_flashes w ++ [("Error creating USB drive: " +:+ err, "error")])
     | ExitsUndecodable _ _ reason =>
         fst (create_usb req w) = Ret (Redirect "/sites")
         /\ w_flashes (snd (create_usb req w))
            = w_flashes w ++ [("Error: " +:+ str_exn (UnicodeDecodeError reason), "error")]
     | LaunchFails e =>
         fst (create_usb req w) = Ret (Redirect "/sites")
         /\ w_flashes (snd (create_usb req w))
            = w_flashes w ++ [("Error: " +:+ str_exn e, "error")]
     | NeverExits =>
         fst (create_usb req w) = Blocked
         /\ w_flashes (snd (create_usb req w)) = w_flashes w
     end.
Proof.
  intros Hs Hd. rewrite (create_usb_by_behaviour req w s dev Hs Hd).
  destruct (w_tools w (create_usb_argv s dev) (Some "/opt/brewnix"))
    as [d rc out err | d rc reason | | e]; simpl; repeat split.
  - intros ->. reflexivity.
  - intros Hrc. apply Z.eqb_neq in Hrc. rewrite Hrc. reflexivity.
Qed.

Lemma create_usb_outcomes_witness :
  let w := Fixtures.world_with true [("lab1.yml", Fixtures.lab1_yaml)]
             Fixtures.tools_healthy in
  let req := Fixtures.post [("site_name", "lab1"); ("usb_device", "/dev/sdz")] in
  w_calls (snd (create_usb req w)) = [create_usb_call "lab1" "/dev/sdz"]
  /\ fst (create_usb req w) = Ret (Redirect "/sites")
  /\ w_flashes (snd (create_usb req w))
     = [("USB bootstrap drive created successfully!", "message")].
Proof.
  intros w req.
  destruct (create_usb_outcomes req w "lab1" "/dev/sdz") as (Hc & Hr & Hok & _);
    [reflexivity | reflexivity |].
  split; [exact Hc | split; [exact Hr | exact (Hok eq_refl)]].
Defined.



End ToolHandlers.

(** ** Status pages and endpoints, on every world *)

Section StatusShape.
Import App.
Context `{Codec}.

(** The system fragment is a failure marker or a full snapshot. *)
Lemma get_system_info_shape (w : world) :
  (exists w1, get_system_info w = (Blocked, w1))
  \/ (exists e w1, get_system_info w = (Ret (error_marker e), w1))
  \/ (exists pools disk mem w1,
        get_system_info w
        = (Ret (system_snapshot (w_hostname w) pools disk mem (w_now w)), w1)).
Proof.
  rewrite get_system_info_by_behaviour. cbv zeta.
  destruct (w_tools w zpool_argv None) as [d rc out err | d rc reason | | e];
    [| right; left; eexists; eexists; reflexivity
     | left; eexists; reflexivity | right; left; eexists; eexists; reflexivity].
  destruct (pools_of rc out) as [pools | e];
    [| right; left; eexists; eexists; reflexivity].
  destruct (w_tools w df_argv None) as [d2 rc2 out2 err2 | d2 rc2 reason | | e];
    [| right; left; eexists; eexists; reflexivity
     | left; eexists; reflexivity | right; left; eexists; eexists; reflexivity].
  destruct (w_tools w free_argv None) as [d3 rc3 out3 err3 | d3 rc3 reason | | e];
    [| right; left; eexists; eexists; reflexivity
     | left; eexists; reflexivity | right; left; eexists; eexists; reflexivity].
  right. right. eexists. eexists. eexists. eexists. reflexivity.
Qed.

(** The version-control fragment is a failure marker or a snapshot. *)
Lemma get_git_status_shape (w : world) :
  (exists w1, get_git_status w = (Blocked, w1))
  \/ (exists e w1, get_git_status w = (Ret (error_marker e), w1))
  \/ (exists status log w1, get_git_status w = (Ret (git_snapshot status log), w1)).
Proof.
  rewrite get_git_status_by_behaviour. cbv zeta.
  destruct (w_tools w git_status_argv (Some REPO_DIR))
    as [d rc out err | d rc reason | | e];
    [| right; left; eexists; eexists; reflexivity
     | left; eexists; reflexivity | right; left; eexists; eexists; reflexivity].
  destruct (w_tools w git_log_argv (Some REPO_DIR))
    as [d2 rc2 out2 err2 | d2 rc2 reason | | e];
    [| right; left; eexists; eexists; reflexivity
     | left; eexists; reflexivity | right; left; eexists; eexists; reflexivity].
  right. right. eexists. eexists. eexists. reflexivity.
Qed.

(** X8. [dashboard] never raises and never shows its error page for a
    failing status source: on every world it either blocks on a tool
    that never exits or renders [dashboard.html] with the three entries
    [system_info], [vm_status] and [git_status], the second being the
    fixed inventory. *)
Theorem dashboard_always_renders (w : world) :
  fst (dashboard w) = Blocked
  \/ exists system_info git_status,
       fst (dashboard w)
       = Ret (Render "dashboard.html"
                [ ("system_info", system_info);
                  ("vm_status", mock_inventory);
                  ("git_status", git_status) ]).
Proof.
  assert (forall s w1,
            get_system_info w = (Ret s, w1) ->
            fst (dashboard w) = Blocked
            \/ exists g, fst (dashboard w)
                 = Ret (Render "dashboard.html"
                          [ ("system_info", s); ("vm_status", mock_inventory);
                            ("git_status", g) ])) as Hsys.
  { intros s w1 E. unfold dashboard, try_except, bind. rewrite E.
    unfold get_proxmox_status, try_except, ret. cbv beta iota.
    destruct (get_git_status_shape w1)
      as [(w2 & G) | [(e' & w2 & G) | (status & log & w2 & G)]]; rewrite G.
    - left. reflexivity.
    - right. eexists. reflexivity.
    - right. eexists. reflexivity. }
  destruct (get_system_info_shape w)
    as [(w1 & E) | [(e & w1 & E) | (pools & disk & mem & w1 & E)]].
  - left. unfold dashboard, try_except, bind. rewrite E. reflexivity.
  - destruct (Hsys _ _ E) as [Hb | (g & Hg)]; [left; exact Hb |].
    right. eexists. eexists. exact Hg.
  - destruct (Hsys _ _ E) as [Hb | (g & Hg)]; [left; exact Hb |].
    right. eexists. eexists. exact Hg.
Qed.

(** X9. [api_status] never raises: on every world it blocks or answers
    with a JSON body that is either the failure marker, whose only key
    is [error], or the full snapshot with the keys [hostname],
    [zfs_pools], [disk_usage], [memory] and [timestamp]; a body never
    mixes the two. *)
Theorem api_status_body_shape (w : world) :
  fst (api_status w) = Blocked
  \/ (exists e,
        fst (api_status w) = Ret (Json (error_marker e))
        /\ forall k, k <> "error" -> get_item (error_marker e) k = None)
  \/ (exists pools disk mem,
        let body := system_snapshot (w_hostname w) pools disk mem (w_now w) in
        fst (api_status w) = Ret (Json body)
        /\ get_item body "error" = None
        /\ get_item body "hostname" = Some (VStr (w_hostname w))
        /\ get_item body "zfs_pools" = Some pools
        /\ get_item body "disk_usage" = Some (VStr disk)
        /\ get_item body "memory" = Some (VStr mem)
        /\ get_item body "timestamp" = Some (VStr (w_now w))).
Proof.
  unfold api_status.
  destruct (get_system_info_shape w)
    as [(w1 & E) | [(e & w1 & E) | (pools & disk & mem & w1 & E)]].
  - left. rewrite (bind_of_blocked _ _ w w1 E). reflexivity.
  - right. left. exists e. rewrite (bind_of_ret _ _ w w1 _ E).
    split; [reflexivity |].
    intros k Hk. unfold error_marker, dict. simpl.
    rewrite lookup_insert_ne by congruence. apply lookup_empty.
  - right. right. exists pools, disk, mem. rewrite (bind_of_ret _ _ w w1 _ E).
    repeat split; reflexivity.
Qed.

End StatusShape.

(** ** Lines of the commit log and the order of the queries *)

Section Queries.
Import App.

Lemma split_not_nil (sep : ascii) (s : string) : split sep s <> [].
Proof.
  destruct s as [| c r]; simpl; [discriminate |].
  destruct (Ascii.eqb c sep); [discriminate |].
  destruct (split sep r); discriminate.
Qed.

Lemma join_lines_cons (l : string) (rest : list string) :
  rest <> [] -> join_lines (l :: rest) = l +:+ String "010"%char (join_lines rest).
Proof. destruct rest; [congruence | reflexivity]. Qed.

(** Joining what [split] produced gives the text back. *)
Lemma join_lines_split (s : string) : join_lines (split "010"%char s) = s.
Proof.
  induction s as [| c r IH]; [reflexivity |].
  simpl split. destruct (Ascii.eqb_spec c "010"%char) as [-> | Hne].
  - rewrite join_lines_cons by apply split_not_nil. rewrite IH. reflexivity.
  - pose proof (split_not_nil "010"%char r) as Hnn.
    destruct (split "010"%char r) as [| h t]; [congruence |].
    destruct t as [| h' t'].
    + simpl in *. rewrite IH. reflexivity.
    + rewrite join_lines_cons by discriminate.
      rewrite join_lines_cons in IH by discriminate.
      rewrite append_cons, IH. reflexivity.
Qed.

(** No piece holds the separator. *)
Lemma split_pieces (sep : ascii) (s : string) :
  Forall (fun l => contains_char sep l = false) (split sep s).
Proof.
  induction s as [| c r IH]; simpl; [repeat constructor |].
  destruct (Ascii.eqb c sep) eqn:E; [constructor; [reflexivity | exact IH] |].
  destruct (split sep r) as [| h t]; [repeat constructor; simpl |].
  - rewrite Ascii.eqb_sym, E. reflexivity.
  - inversion IH as [| ? ? Hh Ht]; subst. constructor; [| exact Ht].
    simpl. rewrite Ascii.eqb_sym, E. exact Hh.
Qed.

(** X10. When both git queries exit with output that decodes as text,
    with whatever exit codes, the version-control fragment holds the stripped porcelain text under
    [status] and, under [recent_commits], the lines of the stripped log:
    joined by newlines they give the stripped log back, none of them
    holds a newline, and the list is empty exactly when the log is blank
    (an empty history is an empty list, not a list with one empty line). *)
Theorem git_fragment_lines (w : world)
    (d1 rc1 : Z) (out1 err1 : string) (d2 rc2 : Z) (out2 err2 : string) :
  w_tools w git_status_argv (Some REPO_DIR) = Exits d1 rc1 out1 err1 ->
  w_tools w git_log_argv (Some REPO_DIR) = Exits d2 rc2 out2 err2 ->
  exists g lines,
    fst (get_git_status w) = Ret g
    /\ get_item g "status" = Some (VStr (strip out1))
    /\ get_item g "recent_commits" = Some (VList (VStr <$> lines))
    /\ join_lines lines = strip out2
    /\ (lines = [] <-> strip out2 = "")
    /\ Forall (fun l => contains_char "010"%char l = false) lines.
Proof.
  intros E1 E2. rewrite get_git_status_by_behaviour. cbv zeta. rewrite E1, E2.
  exists (git_snapshot out1 out2).
  destruct (String.eqb_spec (strip out2) "") as [Hblank | Hlog].
  - exists []. split; [reflexivity |]. split; [reflexivity |].
    split; [unfold git_snapshot; rewrite Hblank; reflexivity |].
    split; [symmetry; exact Hblank |].
    split; [split; intros _; [exact Hblank | reflexivity] | constructor].
  - exists (split "010"%char (strip out2)).
    split; [reflexivity |]. split; [reflexivity |].
    split; [| split; [apply join_lines_split | split; [| apply split_pieces]]].
    + unfold git_snapshot.
      destruct (String.eqb_spec (strip out2) ""); [contradiction | reflexivity].
    + split; [intros Hnil; exfalso; apply (split_not_nil _ _ Hnil) | contradiction].
Qed.

Lemma git_fragment_lines_witness :
  exists g lines,
    fst (get_git_status (Fixtures.world_with true [] Fixtures.tools_healthy)) = Ret g
    /\ get_item g "status" = Some (VStr (strip ""))
    /\ get_item g "recent_commits" = Some (VList (VStr <$> lines))
    /\ join_lines lines = strip Fixtures.git_log_report
    /\ (lines = [] <-> strip Fixtures.git_log_report = "")
    /\ Forall (fun l => contains_char "010"%char l = false) lines.
Proof.
  apply (git_fragment_lines (Fixtures.world_with true [] Fixtures.tools_healthy)
           1 0 "" "" 1 0 Fixtures.git_log_report ""); reflexivity.
Defined.


Context `{Codec}.


End Queries.


(** ** The listing and the files it reads *)

Section ListingMore.
Import App.
Context `{Codec}.

Lemma load_entry_world (name : string) (w : world) : snd (load_entry name w) = w.
Proof.
  apply (keeps_load_entry (fun w0 w1 => w1 = w0)); [reflexivity | congruence].
Qed.

(** What loading an entry yields depends on the text of that file only. *)
Lemma load_entry_by_text (name : string) (w w' : world) :
  lookup_file name (w_files w) = lookup_file name (w_files w') ->
  fst (load_entry name w) = fst (load_entry name w').
Proof.
  intros E. unfold load_entry, bind, read_file. rewrite E.
  destruct (lookup_file name (w_files w')) as [text |]; [| reflexivity].
  destruct (yaml_safe_load text) as [v | e]; [| reflexivity].
  simpl. destruct v; reflexivity.
Qed.

Lemma sites_loop_by_text (names : list string) (w w' : world) :
  (forall n, n ∈ names -> lookup_file n (w_files w) = lookup_file n (w_files w')) ->
  forall acc, fst (sites_loop names acc w) = fst (sites_loop names acc w').
Proof.
  induction names as [| n names IH]; intros Hsame acc; [reflexivity |].
  simpl. unfold bind.
  pose proof (load_entry_by_text n w w' (Hsame n (list_elem_of_here _ _))) as Hfst.
  pose proof (load_entry_world n w) as Hw. pose proof (load_entry_world n w') as Hw'.
  destruct (load_entry n w) as [o1 w1]. destruct (load_entry n w') as [o2 w2].
  simpl in *. subst o2 w1 w2.
  destruct o1 as [v | e |]; [| reflexivity | reflexivity].
  apply IH. intros m Hm. apply Hsame. right. exact Hm.
Qed.

Lemma sites_nothing_listed (w : world) :
  w_dir_exists w = false \/ listed w = [] ->
  sites w = (Ret (Render "sites.html" [("sites", VList [])]), w).
Proof.
  intros Hcase. unfold sites, bind, config_dir_exists, glob_yml. simpl.
  destruct (w_dir_exists w); [| reflexivity].
  destruct Hcase as [Hd | Hl]; [discriminate |].
  unfold listed in Hl. rewrite Hl. reflexivity.
Qed.

(** X12. Without a configuration directory, or with a directory that
    holds no file named [*.yml], [sites] renders the page with an empty
    list: the first visit, before any site was created, is not an error. *)
Theorem sites_of_an_empty_store (w : world) :
  w_dir_exists w = false \/ listed w = [] ->
  sites w = (Ret (Render "sites.html" [("sites", VList [])]), w)
  /\ w_dir_exists (snd (sites w)) = w_dir_exists w.
Proof.
  intros Hcase. rewrite (sites_nothing_listed w Hcase). split; reflexivity.
Qed.

Lemma listed_store_other (name content : string) (w : world) :
  endswith name ".yml" = false ->
  listed (set_files (store_file name content (w_files w)) w) = listed w.
Proof.
  intros Hn. unfold listed. simpl. rewrite store_file_names.
  destruct (lookup_file name (w_files w)); [reflexivity |].
  rewrite filter_app.
  rewrite (filter_cons_False (fun n => endswith n ".yml" = true) name [])
    by (rewrite Hn; discriminate).
  rewrite filter_nil, app_nil_r. reflexivity.
Qed.

(** X13. Only files named [*.yml] count: writing or overwriting a file
    with any other name, whatever its content, changes nothing in what
    [sites] returns or raises. *)
Theorem sites_ignores_other_files (name content : string) (w : world) :
  endswith name ".yml" = false ->
  fst (sites (set_files (store_file name content (w_files w)) w)) = fst (sites w).
Proof.
  intros Hn. set (w' := set_files (store_file name content (w_files w)) w).
  destruct (w_dir_exists w) eqn:Hd.
  - rewrite (sites_unfold w' Hd), (sites_unfold w Hd).
    unfold w' at 1. rewrite (listed_store_other name content w Hn).
    assert (fst (sites_loop (listed w) [] w') = fst (sites_loop (listed w) [] w)) as Hfst.
    { apply sites_loop_by_text. intros n Hin. unfold w'. simpl.
      apply lookup_store_other. intros ->.
      unfold listed in Hin.
      apply elem_of_sort_by, list_elem_of_filter in Hin as [Hyml _]. congruence. }
    destruct (sites_loop (listed w) [] w') as [o1 w1].
    destruct (sites_loop (listed w) [] w) as [o2 w2].
    simpl in Hfst. subst o2. destruct o1; reflexivity.
  - rewrite (sites_nothing_listed w' (or_introl Hd)).
    rewrite (sites_nothing_listed w (or_introl Hd)). reflexivity.
Qed.

End ListingMore.

Lemma sites_of_an_empty_store_witness :
  App.sites (H := Fixtures.stub_codec) Fixtures.fresh_world
  = (Ret (Render "sites.html" [("sites", VList [])]), Fixtures.fresh_world).
Proof.
  apply (sites_of_an_empty_store (H := Fixtures.stub_codec) Fixtures.fresh_world).
  left. reflexivity.
Defined.

Lemma sites_ignores_other_files_witness :
  let w := Fixtures.world_with true [("lab1.yml", Fixtures.lab1_yaml)]
             Fixtures.tools_healthy in
  fst (App.sites (H := Fixtures.stub_codec)
         (set_files (store_file "notes.txt" "{" (w_files w)) w))
  = fst (App.sites (H := Fixtures.stub_codec) w).
Proof.
  intros w.
  apply (sites_ignores_other_files (H := Fixtures.stub_codec) "notes.txt" "{" w).
  reflexivity.
Defined.

(** ** Submissions and what they leave in the store *)

Section CreationMore.
Import App.
Context `{Codec}.


Lemma form_getlist_absent (key : string) (f : list (string * string)) :
  form_first key f = None -> form_getlist key f = [].
Proof.
  induction f as [| [k v] f IH]; simpl; [reflexivity |].
  destruct (String.eqb k key); [discriminate | exact IH].
Qed.

(** X14. The record built from an accepted submission reflects the form
    field by field: each scalar field holds the first value submitted
    under its name, the VLAN id is the integer its text denotes, and each
    disk list holds all values submitted under its name, in order; a
    submission that names no disk is accepted with empty lists. *)
Theorem record_reflects_form (req : request) (w : world) (cfg : value) :
  fst (site_config_of_form req w) = Ret cfg ->
  VStr <$> form_first "site_name" (form req) = get_item cfg "site_name"
  /\ (exists t n, form_first "vlan_id" (form req) = Some t
                  /\ int_of_string t = Some n
                  /\ get_path cfg "network" "vlan_id" = Some (VInt n))
  /\ VStr <$> form_first "ip_range" (form req) = get_path cfg "network" "ip_range"
  /\ VStr <$> form_first "raid_level" (form req) = get_path cfg "storage" "raid_level"
  /\ VStr <$> form_first "api_host" (form req) = get_path cfg "proxmox" "api_host"
  /\ VStr <$> form_first "api_user" (form req) = get_path cfg "proxmox" "api_user"
  /\ get_path cfg "storage" "system_disks"
     = Some (VList (VStr <$> form_getlist "system_disks" (form req)))
  /\ get_path cfg "storage" "data_disks"
     = Some (VList (VStr <$> form_getlist "data_disks" (form req)))
  /\ (form_first "system_disks" (form req) = None ->
      get_path cfg "storage" "system_disks" = Some (VList []))
  /\ (form_first "data_disks" (form req) = None ->
      get_path cfg "storage" "data_disks" = Some (VList [])).
Proof.
  intros Hcfg.
  destruct (site_config_of_form_cases req w)
    as [(name & vt & vlan & ip & raid & host & user & E1 & E2 & E3 & E4 & E5 & E6 & E7 & Hrec)
       | (_ & e & He)]; [| rewrite He in Hcfg; discriminate].
  rewrite Hrec in Hcfg. simpl in Hcfg. injection Hcfg as <-.
  rewrite E1, E4, E5, E6, E7.
  split; [reflexivity |].
  split; [exists vt, vlan; split; [exact E2 | split; [exact E3 | reflexivity]] |].
  do 6 (split; [reflexivity |]).
  split; intros Hnone; rewrite (form_getlist_absent _ _ Hnone); reflexivity.
Qed.




End CreationMore.

Lemma record_reflects_form_witness :
  get_path Fixtures.anon_config "storage" "data_disks" = Some (VList [])
  /\ get_path Fixtures.lab1_config "storage" "data_disks"
     = Some (VList [VStr "/dev/sdb"; VStr "/dev/sdc"]).
Proof.
  split.
  - destruct (record_reflects_form (H := Fixtures.stub_codec)
                (Fixtures.post Fixtures.anon_form)
                Fixtures.fresh_world Fixtures.anon_config)
      as (_ & _ & _ & _ & _ & _ & _ & _ & _ & Hdat); [vm_compute; reflexivity |].
    apply Hdat. reflexivity.
  - destruct (record_reflects_form (H := Fixtures.stub_codec)
                (Fixtures.post Fixtures.lab1_form)
                Fixtures.fresh_world Fixtures.lab1_config)
      as (_ & _ & _ & _ & _ & _ & _ & Hdat & _); [vm_compute; reflexivity |].
    exact Hdat.
Defined.



(** ** Creating a site, then listing *)

Section CreateThenList.
Import App.
Context `{Codec}.




End CreateThenList.


(** ** What a submission leaves alone *)

Section CreationFrame.
Import App.
Context `{Codec}.


End CreationFrame.

